(** * Kepler: resource informer, VM power attribution and container eviction

    A shallow embedding of three pieces of the Kepler node agent and the
    properties its design document states about them:

    - [resource]: [internal/resource/informer.go], the per-cycle [Refresh]
      of the process, container and virtual-machine caches;
    - [monitor]: [internal/monitor/vm.go], [calculateVMPower], the per-zone
      attribution of node power to virtual machines;
    - [collector]: [pkg/collector/metric_collector.go],
      [handleInactiveContainers], the eviction of stale container stats.

    Go's [float64] is the primitive binary64 float of Rocq, so sums, ratios
    and comparisons round exactly as they do in the program.  Go maps are
    stdpp's [gmap]; a [range] over a map visits it in the order of
    [map_to_list] (Go leaves that order unspecified). *)

From Stdlib Require Import ZArith Floats.
From stdpp Require Import gmap strings list fin_maps.

Set Warnings "-inexact-float,-register-all,-notation-for-abbreviation".
Set Warnings "-clear-no-such-hyp".

Notation float64 := PrimFloat.float (only parsing).

(** ** Errors

    A Go [error] value that is not nil.  A possibly nil [error] is an
    [option error]. *)
Inductive error : Type :=
| errorString (msg : string)
| wrapError (msg : string) (err : error)
| joinError (errs : list error).

(** [errors.Join]: nil arguments are dropped, and the result is nil when
    nothing is left. *)
Definition errors_Join (errs : list (option error)) : option error :=
  match omap id errs with
  | [] => None
  | es => Some (joinError es)
  end.

(** [e] is [err] itself or is reachable from [err] through [errors.Join]
    nodes: what a caller finds by unwrapping the joined error. *)
Inductive joins (e : error) : error → Prop :=
| joins_here : joins e e
| joins_member errs e' : e' ∈ errs → joins e e' → joins e (joinError errs).

(** ** Units of the power monitor

    [Power] and [Energy] are declared in another package, which is not
    embedded here; [calculateVMPower] only uses the operations below, and
    the development is parametric in them. *)
Class Units := {
  Power : Type;
  Energy : Type;
  (** [p == 0] and [e == 0] *)
  power_is_zero : Power → bool;
  energy_is_zero : Energy → bool;
  (** [p.MicroWatts()], [Power(x)], [float64(e)], [Energy(x)] *)
  MicroWatts : Power → float64;
  Power_of_float64 : float64 → Power;
  float64_of_Energy : Energy → float64;
  Energy_of_float64 : float64 → Energy;
  (** [a + b] on [Energy] *)
  energy_add : Energy → Energy → Energy;
}.

(** Truncation of a float towards zero, [None] on infinities and NaN. *)
Definition float64_trunc (f : float64) : option Z :=
  match Prim2SF f with
  | S754_zero _ => Some 0%Z
  | S754_finite s m e =>
      let v := (if (0 <=? e)%Z then Z.pos m * 2 ^ e else Z.pos m / 2 ^ (- e))%Z in
      Some (if s then (- v)%Z else v)
  | _ => None
  end.

(** Modelled from the spec: the unit types, declared in another package.
    Power is a [float64] number of microwatts and energy an unsigned
    64-bit number of microjoules, so that the "100 W" and "50 J" of the
    scenarios are [100e6] and [50_000_000].  Addition wraps around at
    [2^64].  A float that is out of the range of [uint64] converts to
    [2^63], as on amd64; Go leaves that result to the implementation and
    nothing below depends on it. *)
#[export] Instance microUnits : Units := {|
  Power := float64;
  Energy := Z;
  power_is_zero p := PrimFloat.eqb p 0;
  energy_is_zero e := (e =? 0)%Z;
  MicroWatts p := p;
  Power_of_float64 x := x;
  float64_of_Energy e := SF2Prim (binary_normalize 53 1024 e 0 false);
  Energy_of_float64 x :=
    match float64_trunc x with
    | Some z => if ((0 <=? z) && (z <? 2 ^ 64))%Z then z else (2 ^ 63)%Z
    | None => (2 ^ 63)%Z
    end;
  energy_add a b := ((a + b) mod 2 ^ 64)%Z;
|}.

(** * Package [resource] *)
Module resource.

(** Modelled from the spec: [ProcessType], declared in another file of the
    package.  [UnknownProcess] is the zero value, the type of a process that
    has not been classified yet. *)
Inductive ProcessType : Type :=
| UnknownProcess
| RegularProcess
| ContainerProcess
| VMProcess.

#[export] Instance ProcessType_eq_dec : EqDecision ProcessType.
Proof. solve_decision. Defined.

(** Modelled from the spec: the [Container] struct, declared in another
    file of the package, with the fields the informer reads and writes. *)
Module Container.
Record t : Type := mk {
  ID : string;
  Name : string;
  Runtime : string;
  CPUTotalTime : float64;
  CPUTimeDelta : float64;
}.
(** [c.Clone()]: a copy that shares nothing with [c]. *)
Definition Clone (c : t) : t := c.
End Container.

(** Modelled from the spec: the [VirtualMachine] struct. *)
Module VirtualMachine.
Record t : Type := mk {
  ID : string;
  Name : string;
  Hypervisor : string;
  CPUTotalTime : float64;
  CPUTimeDelta : float64;
}.
Definition Clone (vm : t) : t := vm.
End VirtualMachine.

(** Modelled from the spec: the [Process] struct.  [Container] and
    [VirtualMachine] are the pointers set by the classification; [None] is
    nil. *)
Module Process.
Record t : Type := mk {
  PID : Z;
  Comm : string;
  Exe : string;
  CPUTotalTime : float64;
  CPUTimeDelta : float64;
  Type_ : ProcessType;
  Container : option Container.t;
  VirtualMachine : option VirtualMachine.t;
}.
End Process.

(** The [procInfo] interface: what the process table answers for one
    process during one cycle.  An accessor returns either an error or a
    value.  [containerInfoFromProc] and [vmInfoFromProc] are the two
    classification lookups; they return a pointer and an error side by
    side, as the [result] struct of [computeTypeInfoFromProc] holds them. *)
Record procInfo : Type := {
  PID : Z;
  Comm : error + string;
  Executable : error + string;
  CPUTime : error + float64;
  containerInfoFromProc : option Container.t * option error;
  vmInfoFromProc : option VirtualMachine.t * option error;
}.

Module Processes.
Record t : Type := mk {
  NodeCPUTimeDelta : float64;
  Running : gmap Z Process.t;
  Terminated : gmap Z Process.t;
}.
End Processes.

Module Containers.
Record t : Type := mk {
  NodeCPUTimeDelta : float64;
  Running : gmap string Container.t;
  Terminated : gmap string Container.t;
}.
End Containers.

Module VirtualMachines.
Record t : Type := mk {
  NodeCPUTimeDelta : float64;
  Running : gmap string VirtualMachine.t;
  Terminated : gmap string VirtualMachine.t;
}.
End VirtualMachines.

(** The state of the informer (logger, reader and clock left out). *)
Record resourceInformer : Type := {
  procCache : gmap Z Process.t;
  processes : Processes.t;
  containerCache : gmap string Container.t;
  containers : Containers.t;
  vmCache : gmap string VirtualMachine.t;
  vms : VirtualMachines.t;
}.

Definition NewInformer : resourceInformer := {|
  procCache := ∅;
  processes := Processes.mk 0%float ∅ ∅;
  containerCache := ∅;
  containers := Containers.mk 0%float ∅ ∅;
  vmCache := ∅;
  vms := VirtualMachines.mk 0%float ∅ ∅;
|}.

Record ProcessTypeInfo : Type := {
  Type_ : ProcessType;
  Container : option Container.t;
  VM : option VirtualMachine.t;
}.

(** The two lookups run in goroutines of their own and share no state; the
    function waits for both results and then decides.  The third case
    returns [errors.Join] of two nil errors, which is nil.  In the default
    case one of the two errors is not nil, so [errors.Join] returns the
    join of those that are not. *)
Definition computeTypeInfoFromProc (proc : procInfo) : error + ProcessTypeInfo :=
  let ctnrResult := containerInfoFromProc proc in
  let vmResult := vmInfoFromProc proc in
  match ctnrResult, vmResult with
  | (Some container, None), _ =>
      inr {| Type_ := ContainerProcess; Container := Some container; VM := None |}
  | _, (Some vm, None) =>
      inr {| Type_ := VMProcess; Container := None; VM := Some vm |}
  | (_, None), (_, None) =>
      inr {| Type_ := RegularProcess; Container := None; VM := None |}
  | (_, cerr), (_, verr) => inl (joinError (omap id [cerr; verr]))
  end.

(** [populateProcessFields] writes through the pointer [p]; the model
    returns the process as the call leaves it, together with the error. *)
Definition populateProcessFields (p : Process.t) (proc : procInfo)
  : Process.t * option error :=
  match CPUTime proc with
  | inl err => (p, Some err)
  | inr cpuTotalTime =>
    let p := Process.mk (Process.PID p) (Process.Comm p) (Process.Exe p)
               cpuTotalTime (cpuTotalTime - Process.CPUTotalTime p)%float
               (Process.Type_ p) (Process.Container p) (Process.VirtualMachine p) in
    let newProc := bool_decide (Process.Comm p = "") in
    if negb newProc && (Process.CPUTimeDelta p <=? 1e-12)%float then (p, None)
    else
      match Comm proc with
      | inl err => (p, Some (wrapError "failed to get process comm" err))
      | inr comm =>
        let p := Process.mk (Process.PID p) comm (Process.Exe p)
                   (Process.CPUTotalTime p) (Process.CPUTimeDelta p)
                   (Process.Type_ p) (Process.Container p) (Process.VirtualMachine p) in
        match Executable proc with
        | inl err => (p, Some (wrapError "failed to get process executable" err))
        | inr exe =>
          let p := Process.mk (Process.PID p) (Process.Comm p) exe
                     (Process.CPUTotalTime p) (Process.CPUTimeDelta p)
                     (Process.Type_ p) (Process.Container p) (Process.VirtualMachine p) in
          if decide (Process.Type_ p = UnknownProcess) then
            match computeTypeInfoFromProc proc with
            | inl err => (p, Some (wrapError "failed to detect process type" err))
            | inr info =>
              (Process.mk (Process.PID p) (Process.Comm p) (Process.Exe p)
                 (Process.CPUTotalTime p) (Process.CPUTimeDelta p)
                 (Type_ info) (Container info) (VM info), None)
            end
          else (p, None)
        end
      end
  end.

(** [newProcess]: a zero-valued [Process] with the PID filled in, then
    populated; nil and the error when that fails. *)
Definition newProcess (proc : procInfo) : error + Process.t :=
  let p := Process.mk (PID proc) "" "" 0%float 0%float UnknownProcess None None in
  match populateProcessFields p proc with
  | (_, Some err) => inl err
  | (p, None) => inr p
  end.

(** [updateProcessCache] returns the cache as the call leaves it and what
    the call returns: the process it points to, or the error.  A cached
    process is updated in place also when the update fails. *)
Definition updateProcessCache (procCache : gmap Z Process.t) (proc : procInfo)
  : gmap Z Process.t * (error + Process.t) :=
  let pid := PID proc in
  match procCache !! pid with
  | Some cached =>
      let '(cached, err) := populateProcessFields cached proc in
      (<[pid := cached]> procCache,
       match err with Some err => inl err | None => inr cached end)
  | None =>
      match newProcess proc with
      | inl err => (procCache, inl err)
      | inr newProc => (<[pid := newProc]> procCache, inr newProc)
      end
  end.

(** [updateContainerCache] returns the pointer stored under [c.ID] in the
    cache (nil when the process has no container); the model returns the
    cache, where that object lives. *)
Definition updateContainerCache (containerCache : gmap string Container.t)
    (proc : Process.t) (resetCPUTime : bool) : gmap string Container.t :=
  match Process.Container proc with
  | None => containerCache
  | Some c =>
    let cached :=
      match containerCache !! Container.ID c with
      | Some cached => cached
      | None => Container.Clone c
      end in
    let delta := if resetCPUTime then 0%float else Container.CPUTimeDelta cached in
    <[Container.ID c :=
        Container.mk (Container.ID cached) (Container.Name cached)
          (Container.Runtime cached)
          (Container.CPUTotalTime cached + Process.CPUTimeDelta proc)%float
          (delta + Process.CPUTimeDelta proc)%float]> containerCache
  end.

Definition updateVMCache (vmCache : gmap string VirtualMachine.t)
    (proc : Process.t) (resetCPUTime : bool) : gmap string VirtualMachine.t :=
  match Process.VirtualMachine proc with
  | None => vmCache
  | Some vm =>
    let cached :=
      match vmCache !! VirtualMachine.ID vm with
      | Some cached => cached
      | None => VirtualMachine.Clone vm
      end in
    let delta := if resetCPUTime then 0%float else VirtualMachine.CPUTimeDelta cached in
    <[VirtualMachine.ID vm :=
        VirtualMachine.mk (VirtualMachine.ID cached) (VirtualMachine.Name cached)
          (VirtualMachine.Hypervisor cached)
          (VirtualMachine.CPUTotalTime cached + Process.CPUTimeDelta proc)%float
          (delta + Process.CPUTimeDelta proc)%float]> vmCache
  end.

(** The state of the first loop of [Refresh].

    The Go maps hold pointers.  [procsRunning[pid]] is always the pointer
    that [procCache[pid]] holds ([updateProcessCache] returns it), and no
    entry of the cache is replaced or deleted during the loop; the same
    goes for [containersRunning], [vmsRunning] and their caches.  So the
    objects live in the caches, which are the store, and the three running
    maps are kept as their sets of keys: a later write through the cache
    is seen through the running map, as it is in Go. *)
Record scan : Type := {
  scan_procCache : gmap Z Process.t;
  scan_containerCache : gmap string Container.t;
  scan_vmCache : gmap string VirtualMachine.t;
  procsRunning : gset Z;
  containersRunning : gset string;
  vmsRunning : gset string;
  refreshErrs : option error;
}.

(** One iteration of [for _, p := range procs]. *)
Definition refreshProc (st : scan) (p : procInfo) : scan :=
  let pid := PID p in
  match updateProcessCache (scan_procCache st) p with
  | (procCache, inl err) =>
      {| scan_procCache := procCache;
         scan_containerCache := scan_containerCache st;
         scan_vmCache := scan_vmCache st;
         procsRunning := procsRunning st;
         containersRunning := containersRunning st;
         vmsRunning := vmsRunning st;
         refreshErrs := errors_Join [refreshErrs st; Some err] |}
  | (procCache, inr proc) =>
      let running := {[pid]} ∪ procsRunning st in
      match Process.Container proc, Process.VirtualMachine proc with
      | Some c, _ =>
          let seen := bool_decide (Container.ID c ∈ containersRunning st) in
          let resetCPUTime := negb seen in
          {| scan_procCache := procCache;
             scan_containerCache :=
               updateContainerCache (scan_containerCache st) proc resetCPUTime;
             scan_vmCache := scan_vmCache st;
             procsRunning := running;
             containersRunning := {[Container.ID c]} ∪ containersRunning st;
             vmsRunning := vmsRunning st;
             refreshErrs := refreshErrs st |}
      | None, Some vm =>
          let seen := bool_decide (VirtualMachine.ID vm ∈ vmsRunning st) in
          let resetCPUTime := negb seen in
          {| scan_procCache := procCache;
             scan_containerCache := scan_containerCache st;
             scan_vmCache := updateVMCache (scan_vmCache st) proc resetCPUTime;
             procsRunning := running;
             containersRunning := containersRunning st;
             vmsRunning := {[VirtualMachine.ID vm]} ∪ vmsRunning st;
             refreshErrs := refreshErrs st |}
      | None, None =>
          {| scan_procCache := procCache;
             scan_containerCache := scan_containerCache st;
             scan_vmCache := scan_vmCache st;
             procsRunning := running;
             containersRunning := containersRunning st;
             vmsRunning := vmsRunning st;
             refreshErrs := refreshErrs st |}
      end
  end.

Definition scanProcs (ri : resourceInformer) (procs : list procInfo) : scan :=
  fold_left refreshProc procs
    {| scan_procCache := procCache ri;
       scan_containerCache := containerCache ri;
       scan_vmCache := vmCache ri;
       procsRunning := ∅;
       containersRunning := ∅;
       vmsRunning := ∅;
       refreshErrs := None |}.

(** The objects a running map points to: the entries of the store under
    the keys of the map. *)
Definition pointees {K V} `{Countable K} (keys : gset K) (store : gmap K V)
  : gmap K V :=
  filter (λ kv, kv.1 ∈ keys) store.

(** The three "find terminated" loops are a [range] over a cache.  The
    entry of a running object is kept and its CPU time delta added to the
    total; any other entry is moved to the terminated map and deleted from
    the cache.  [visitCached] is one iteration, on the total, the
    terminated map and the cache. *)
Definition visitCached {K V} `{Countable K} (delta : V → float64)
    (running : gset K) (acc : float64 * gmap K V * gmap K V) (entry : K * V)
  : float64 * gmap K V * gmap K V :=
  let '(total, terminated, cache) := acc in
  let '(id, obj) := entry in
  if decide (id ∈ running)
  then ((total + delta obj)%float, terminated, cache)
  else (total, <[id := obj]> terminated, delete id cache).

Definition findTerminated {K V} `{Countable K} (delta : V → float64)
    (cache : gmap K V) (running : gset K) : float64 * gmap K V * gmap K V :=
  fold_left (visitCached delta running) (map_to_list cache) (0%float, ∅, cache).

(** [Refresh], given what [ri.fs.AllProcs()] returns.  The VM loop adds up
    nothing; its sum is dropped here as [totalContainerDelta] is in the
    source. *)
Definition Refresh (ri : resourceInformer) (AllProcs : error + list procInfo)
  : resourceInformer * option error :=
  match AllProcs with
  | inl err => (ri, Some (wrapError "failed to get processes" err))
  | inr procs =>
    let st := scanProcs ri procs in
    let '(nodeCPUDelta, procsTerminated, procCache') :=
      findTerminated Process.CPUTimeDelta (scan_procCache st) (procsRunning st) in
    let '(_, containersTerminated, containerCache') :=
      findTerminated Container.CPUTimeDelta (scan_containerCache st)
        (containersRunning st) in
    let '(_, vmsTerminated, vmCache') :=
      findTerminated VirtualMachine.CPUTimeDelta (scan_vmCache st) (vmsRunning st) in
    ({| procCache := procCache';
        processes :=
          Processes.mk nodeCPUDelta
            (pointees (procsRunning st) (scan_procCache st)) procsTerminated;
        containerCache := containerCache';
        containers :=
          Containers.mk nodeCPUDelta
            (pointees (containersRunning st) (scan_containerCache st))
            containersTerminated;
        vmCache := vmCache';
        vms :=
          VirtualMachines.mk nodeCPUDelta
            (pointees (vmsRunning st) (scan_vmCache st)) vmsTerminated |},
     refreshErrs st)
  end.

(** A run of the informer: [Refresh] once per cycle. *)
Definition run (ri : resourceInformer) (cycles : list (error + list procInfo))
  : resourceInformer :=
  fold_left (λ ri AllProcs, (Refresh ri AllProcs).1) cycles ri.

(** ** Notions used to state the properties of [Refresh] *)

(** The sum of a list of floats as a Go loop [total += x] computes it:
    from the left, starting at 0. *)
Definition float64_sum (xs : list float64) : float64 :=
  fold_left PrimFloat.add xs 0%float.

(** The processes that [updateProcessCache] returns without an error
    during the first loop of [Refresh], in the order of the loop, each as
    its call leaves it. *)
Fixpoint refreshedProcs (procCache : gmap Z Process.t) (procs : list procInfo)
  : list Process.t :=
  match procs with
  | [] => []
  | p :: procs =>
      match updateProcessCache procCache p with
      | (procCache, inl _) => refreshedProcs procCache procs
      | (procCache, inr proc) => proc :: refreshedProcs procCache procs
      end
  end.

(** The process is grouped under the container [id] by the loop: its
    [Container] is not nil and has that ID. *)
Definition inContainer (id : string) (proc : Process.t) : Prop :=
  Container.ID <$> Process.Container proc = Some id.

(** The process is grouped under the VM [id]: its [Container] is nil and
    its [VirtualMachine] has that ID. *)
Definition inVM (id : string) (proc : Process.t) : Prop :=
  Process.Container proc = None
  ∧ VirtualMachine.ID <$> Process.VirtualMachine proc = Some id.

#[export] Instance inContainer_dec id proc : Decision (inContainer id proc).
Proof. unfold inContainer. apply _. Defined.

#[export] Instance inVM_dec id proc : Decision (inVM id proc).
Proof. unfold inVM. apply _. Defined.

(** A call that returns an error. *)
Definition returnsError {A} (r : error + A) : Prop := ∃ err, r = inl err.

(** During the first loop every key of a running map is a key of its
    cache: the running map points into the cache. *)
Definition scan_wf (st : scan) : Prop :=
  procsRunning st ⊆ dom (scan_procCache st)
  ∧ containersRunning st ⊆ dom (scan_containerCache st)
  ∧ vmsRunning st ⊆ dom (scan_vmCache st).

(** The CPU time delta that the cycle has given the container [id] so
    far: the delta of the cached container once the loop has met the
    container, and 0 before, whatever the cache holds from earlier
    cycles.  Likewise for a VM. *)
Definition containerDeltaSoFar (st : scan) (id : string) : float64 :=
  if decide (id ∈ containersRunning st)
  then default 0%float (Container.CPUTimeDelta <$> scan_containerCache st !! id)
  else 0%float.

Definition vmDeltaSoFar (st : scan) (id : string) : float64 :=
  if decide (id ∈ vmsRunning st)
  then default 0%float (VirtualMachine.CPUTimeDelta <$> scan_vmCache st !! id)
  else 0%float.

(** The caches and the published sets agree: each cache holds exactly the
    keys of its running set, and no key is both running and terminated. *)
Definition consistent (ri : resourceInformer) : Prop :=
  (dom (procCache ri) = dom (Processes.Running (processes ri))
   ∧ dom (Processes.Running (processes ri))
     ## dom (Processes.Terminated (processes ri)))
  ∧ (dom (containerCache ri) = dom (Containers.Running (containers ri))
     ∧ dom (Containers.Running (containers ri))
       ## dom (Containers.Terminated (containers ri)))
  ∧ (dom (vmCache ri) = dom (VirtualMachines.Running (vms ri))
     ∧ dom (VirtualMachines.Running (vms ri))
       ## dom (VirtualMachines.Terminated (vms ri))).

(** The type tag of a process agrees with its two pointers: a container
    process has a container and no VM, a VM process a VM and no container,
    a regular process neither; and the process has been classified. *)
Definition tagged (proc : Process.t) : Prop :=
  match Process.Type_ proc with
  | UnknownProcess => False
  | RegularProcess =>
      Process.Container proc = None ∧ Process.VirtualMachine proc = None
  | ContainerProcess =>
      is_Some (Process.Container proc) ∧ Process.VirtualMachine proc = None
  | VMProcess =>
      Process.Container proc = None ∧ is_Some (Process.VirtualMachine proc)
  end.

(** A classification lookup gave a result that [computeTypeInfoFromProc]
    uses: a pointer that is not nil, and a nil error. *)
Definition usable {A} (result : option A * option error) : Prop :=
  is_Some result.1 ∧ result.2 = None.

End resource.

(** * Package [monitor] *)
Module monitor.

(** A zone is identified by its name. *)
Notation Zone := string (only parsing).

Module Usage.
Record t `{Units} : Type := mk {
  Power : Power;
  Delta : Energy;
  Absolute : Energy;
}.
Arguments mk {_} _ _ _.
End Usage.

Module VirtualMachine.
Record t `{Units} : Type := mk {
  ID : string;
  Name : string;
  Hypervisor : string;
  CPUTotalTime : float64;
  Zones : gmap Zone Usage.t;
}.
Arguments mk {_} _ _ _ _ _.
End VirtualMachine.

Module Node.
Record t `{Units} : Type := mk {
  Zones : gmap Zone Usage.t;
}.
Arguments mk {_} _.
End Node.

(** The part of a snapshot that [calculateVMPower] reads and writes. *)
Record Snapshot `{Units} : Type := {
  Node : Node.t;
  VirtualMachines : gmap string VirtualMachine.t;
}.
Arguments Build_Snapshot {_} _ _.

Section attribution.
Context `{Units}.

(** The condition of the zero guard:
    [nodeZoneUsage.Power == 0 || nodeZoneUsage.Delta == 0 ||
     vms.NodeCPUTimeDelta == 0]. *)
Definition zeroGuard (nodeZoneUsage : Usage.t) (NodeCPUTimeDelta : float64) : bool :=
  power_is_zero (Usage.Power nodeZoneUsage)
  || energy_is_zero (Usage.Delta nodeZoneUsage)
  || (NodeCPUTimeDelta =? 0)%float.

(** The body of the loop over [newSnapshot.Node.Zones]: what is stored in
    [vm.Zones[zone]] for the running VM [c] under the key [id]. *)
Definition vmZoneUsage (vms : resource.VirtualMachines.t) (prev : Snapshot)
    (id : string) (c : resource.VirtualMachine.t)
    (zone : Zone) (nodeZoneUsage : Usage.t) : Usage.t :=
  if zeroGuard nodeZoneUsage (resource.VirtualMachines.NodeCPUTimeDelta vms) then
    Usage.mk (Power_of_float64 0) (Energy_of_float64 0) (Energy_of_float64 0)
  else
    let cpuTimeRatio :=
      (resource.VirtualMachine.CPUTimeDelta c
       / resource.VirtualMachines.NodeCPUTimeDelta vms)%float in
    let power :=
      Power_of_float64 (cpuTimeRatio * MicroWatts (Usage.Power nodeZoneUsage)) in
    let delta :=
      Energy_of_float64
        (cpuTimeRatio * float64_of_Energy (Usage.Delta nodeZoneUsage)) in
    let absolute :=
      match VirtualMachines prev !! id with
      | Some prevVM =>
          match VirtualMachine.Zones prevVM !! zone with
          | Some prevUsage => energy_add (Usage.Absolute prevUsage) delta
          | None => delta
          end
      | None => delta
      end in
    Usage.mk power delta absolute.

(** [calculateVMPower], given what [pm.resources.VirtualMachines()]
    returns.  The function always returns a nil error; the model returns
    [newSnapshot] as the call leaves it. *)
Definition calculateVMPower (vms : resource.VirtualMachines.t)
    (prev newSnapshot : Snapshot) : Snapshot :=
  if decide (size (resource.VirtualMachines.Running vms) = 0) then newSnapshot
  else
    {| Node := Node newSnapshot;
       VirtualMachines :=
         map_imap
           (λ id c,
              Some (VirtualMachine.mk id
                      (resource.VirtualMachine.Name c)
                      (resource.VirtualMachine.Hypervisor c)
                      (resource.VirtualMachine.CPUTotalTime c)
                      (map_imap
                         (λ zone nodeZoneUsage,
                            Some (vmZoneUsage vms prev id c zone nodeZoneUsage))
                         (Node.Zones (Node newSnapshot)))))
           (resource.VirtualMachines.Running vms) |}.

(** The usage of [zone] for the VM [id] in a snapshot. *)
Definition zoneUsageOf (s : Snapshot) (id : string) (zone : Zone) : option Usage.t :=
  VirtualMachines s !! id ≫= λ vm, VirtualMachine.Zones vm !! zone.

(** [firstVMRead], given what [pm.cpu.Zones()] returns: every running VM
    gets a zero usage for each zone.  [zones] is a slice; a zone that it
    lists twice is written twice.  The result is the snapshot as the call
    leaves it, and the error. *)
Definition firstVMRead (Zones : error + list Zone)
    (vms : resource.VirtualMachines.t) (snapshot : Snapshot)
  : Snapshot * option error :=
  match Zones with
  | inl err => (snapshot, Some err)
  | inr zones =>
      let running := resource.VirtualMachines.Running vms in
      ({| Node := Node snapshot;
          VirtualMachines :=
            map_imap
              (λ id vm,
                 Some (VirtualMachine.mk id
                         (resource.VirtualMachine.Name vm)
                         (resource.VirtualMachine.Hypervisor vm)
                         (resource.VirtualMachine.CPUTotalTime vm)
                         (fold_left
                            (λ Zones zone,
                               <[zone := Usage.mk (Power_of_float64 0)
                                           (Energy_of_float64 0)
                                           (Energy_of_float64 0)]> Zones)
                            zones ∅)))
              running |},
       None)
  end.

End attribution.
End monitor.

(** * Package [collector] *)
Module collector.

Definition maxInactiveContainers : Z := 10.
Definition maxInactiveVM : Z := 3.

(** What [handleInactiveContainers] does besides writing the map: the call
    of [cgroup.GetAliveContainers] and the line it logs at verbosity 5. *)
Inductive event : Type :=
| GetAliveContainers_called
| klog_Infoln (err : error).

Section eviction.
(** The IDs of the two pseudo containers, [utils.SystemProcessName] and
    [utils.KernelProcessName], are declared in another package; so is the
    type of the container stats.  Both are parameters. *)
Context (SystemProcessName KernelProcessName : string).
Context {ContainerStats_t : Type}.

(** One iteration of [for containerID := range c.ContainerStats]. *)
Definition evictContainer (aliveContainers : gset string)
    (ContainerStats : gmap string ContainerStats_t) (containerID : string)
  : gmap string ContainerStats_t :=
  if bool_decide (containerID = SystemProcessName)
     || bool_decide (containerID = KernelProcessName)
  then ContainerStats
  else if decide (containerID ∈ aliveContainers) then ContainerStats
  else delete containerID ContainerStats.

(** [handleInactiveContainers], given what [cgroup.GetAliveContainers()]
    returns when it is called.  [foundContainer] is a [map[string]bool]
    that only ever holds [true]; its length is the number of its keys.
    The result is [c.ContainerStats] as the call leaves it, with the
    events of the call in order. *)
Definition handleInactiveContainers (ContainerStats : gmap string ContainerStats_t)
    (foundContainer : gset string) (GetAliveContainers : error + gset string)
  : gmap string ContainerStats_t * list event :=
  let numOfInactive :=
    (Z.of_nat (size ContainerStats) - Z.of_nat (size foundContainer))%Z in
  if (numOfInactive <=? maxInactiveContainers)%Z then (ContainerStats, [])
  else
    match GetAliveContainers with
    | inl err => (ContainerStats, [GetAliveContainers_called; klog_Infoln err])
    | inr aliveContainers =>
        (fold_left (evictContainer aliveContainers)
           (map_to_list ContainerStats).*1 ContainerStats,
         [GetAliveContainers_called])
    end.

End eviction.

(** Modelled from the spec: the [stats.ProcessStats] struct, declared in
    another package, with the fields that [cleanupStaleResources] reads
    and writes. *)
Module ProcessStats.
Record t : Type := mk {
  PID : Z;
  IdleCounter : N;
  ContainerID : string;
  VMID : string;
}.
End ProcessStats.

Section cleanup.
Context (SystemProcessName KernelProcessName : string).
Context {ContainerStats_t VMStats_t : Type}.
(** The two feature toggles of package [config], and the answer of the
    operating system to [processExists], taken as fixed during one
    cleanup. *)
Context (IsExposeContainerStatsEnabled IsExposeVMStatsEnabled : bool).
Context (processExists : Z → bool).

(** One iteration of [for vmID := range c.VMStats]. *)
Definition evictVM (foundVM : gset string)
    (VMStats : gmap string VMStats_t) (vmID : string) : gmap string VMStats_t :=
  if decide (vmID ∈ foundVM) then VMStats else delete vmID VMStats.

(** [handleInactiveVM]; the result is [c.VMStats] as the call leaves it. *)
Definition handleInactiveVM (VMStats : gmap string VMStats_t)
    (foundVM : gset string) : gmap string VMStats_t :=
  let numOfInactive := (Z.of_nat (size VMStats) - Z.of_nat (size foundVM))%Z in
  if (numOfInactive <=? maxInactiveVM)%Z then VMStats
  else fold_left (evictVM foundVM) (map_to_list VMStats).*1 VMStats.

(** The three maps of the [Collector] that the cleanup works on. *)
Record Collector : Type := {
  ProcessStats : gmap Z ProcessStats.t;
  ContainerStats : gmap string ContainerStats_t;
  VMStats : gmap string VMStats_t;
}.

(** One iteration of [for pid, process := range c.ProcessStats], on the
    process map and the two marker sets.  The counters that the loop keeps
    for its debug line are left out. *)
Definition visitProcess (c : Collector)
    (acc : gmap Z ProcessStats.t * gset string * gset string)
    (entry : Z * ProcessStats.t)
  : gmap Z ProcessStats.t * gset string * gset string :=
  let '(ProcessStats, containersFound, vmsFound) := acc in
  let '(pid, process) := entry in
  if (ProcessStats.IdleCounter process =? 0)%N
     || processExists (ProcessStats.PID process)
  then
    let process :=
      ProcessStats.mk (ProcessStats.PID process) 0%N
        (ProcessStats.ContainerID process) (ProcessStats.VMID process) in
    let containersFound :=
      if IsExposeContainerStatsEnabled
         && negb (bool_decide (ProcessStats.ContainerID process = ""))
      then
        match ContainerStats c !! ProcessStats.ContainerID process with
        | Some _ => {[ProcessStats.ContainerID process]} ∪ containersFound
        | None => containersFound
        end
      else containersFound in
    let vmsFound :=
      if IsExposeVMStatsEnabled
         && negb (bool_decide (ProcessStats.VMID process = ""))
      then
        match VMStats c !! ProcessStats.VMID process with
        | Some _ => {[ProcessStats.VMID process]} ∪ vmsFound
        | None => vmsFound
        end
      else vmsFound in
    (<[pid := process]> ProcessStats, containersFound, vmsFound)
  else (delete pid ProcessStats, containersFound, vmsFound).

(** [cleanupStaleResources], given what [cgroup.GetAliveContainers()]
    returns if it is called: the collector as the call leaves it, and the
    events of [handleInactiveContainers]. *)
Definition cleanupStaleResources (c : Collector)
    (GetAliveContainers : error + gset string) : Collector * list event :=
  let '(ProcessStats', containersFound, vmsFound) :=
    fold_left (visitProcess c) (map_to_list (ProcessStats c))
      (ProcessStats c, ∅, ∅) in
  let '(ContainerStats', events) :=
    if IsExposeContainerStatsEnabled
    then handleInactiveContainers SystemProcessName KernelProcessName
           (ContainerStats c) containersFound GetAliveContainers
    else (ContainerStats c, []) in
  let VMStats' :=
    if IsExposeVMStatsEnabled then handleInactiveVM (VMStats c) vmsFound
    else VMStats c in
  ({| ProcessStats := ProcessStats';
      ContainerStats := ContainerStats';
      VMStats := VMStats' |}, events).

(** The process is kept by the cleanup: its stats were updated in the
    last iteration, or the process still exists. *)
Definition survives (process : ProcessStats.t) : bool :=
  (ProcessStats.IdleCounter process =? 0)%N
  || processExists (ProcessStats.PID process).

End cleanup.
End collector.

(** * Scenarios

    The concrete inputs of the scenarios and of the examples below. *)
Module scenarios.
Import resource.

(** A running VM that used [cpu] seconds of CPU time in the cycle. *)
Definition vmWithDelta (cpu : float64) : VirtualMachine.t :=
  VirtualMachine.mk "vm-1" "guest" "kvm" 100%float cpu.

(** The informer's answer with that VM alone and the given node delta. *)
Definition oneVM (nodeCPUTimeDelta cpu : float64) : VirtualMachines.t :=
  VirtualMachines.mk nodeCPUTimeDelta {["vm-1" := vmWithDelta cpu]} ∅.

(** A usage in microwatts and microjoules. *)
Definition microUsage (power : float64) (delta absolute : Z)
  : @monitor.Usage.t microUnits :=
  monitor.Usage.mk power delta absolute.

(** A snapshot whose node has the single zone "package" with the given
    power (in microwatts) and energy delta (in microjoules). *)
Definition nodeSnapshot (power : float64) (delta : Z) : monitor.Snapshot :=
  monitor.Build_Snapshot
    (monitor.Node.mk {["package" := microUsage power delta 0]}) ∅.

(** A previous snapshot in which "vm-1" has [absolute] microjoules in the
    zone "package". *)
Definition prevSnapshot (absolute : Z) : monitor.Snapshot :=
  monitor.Build_Snapshot
    (monitor.Node.mk ∅)
    {["vm-1" :=
        monitor.VirtualMachine.mk "vm-1" "guest" "kvm" 90%float
          {["package" := microUsage 0 0 absolute]}]}.

(** Processes as the process table reports them: one outside any
    container or VM, one in the container "c1", one in the VM "vm-1", and
    one for which both classification lookups fail. *)
Definition regularProc (pid : Z) (cpu : float64) : procInfo :=
  {| PID := pid; Comm := inr "sshd"; Executable := inr "/usr/sbin/sshd";
     CPUTime := inr cpu;
     containerInfoFromProc := (None, None); vmInfoFromProc := (None, None) |}.

Definition web : Container.t := Container.mk "c1" "web" "crio" 0 0.

Definition containerProc (pid : Z) (cpu : float64) : procInfo :=
  {| PID := pid; Comm := inr "nginx"; Executable := inr "/usr/sbin/nginx";
     CPUTime := inr cpu;
     containerInfoFromProc := (Some web, None); vmInfoFromProc := (None, None) |}.

Definition guest : VirtualMachine.t := VirtualMachine.mk "vm-1" "guest" "kvm" 0 0.

Definition vmProc (pid : Z) (cpu : float64) : procInfo :=
  {| PID := pid; Comm := inr "qemu-kvm"; Executable := inr "/usr/bin/qemu-kvm";
     CPUTime := inr cpu;
     containerInfoFromProc := (None, None); vmInfoFromProc := (Some guest, None) |}.

Definition unclassifiable (pid : Z) (cpu : float64) : procInfo :=
  {| PID := pid; Comm := inr "job"; Executable := inr "/usr/bin/job";
     CPUTime := inr cpu;
     containerInfoFromProc := (None, Some (errorString "read cgroup: permission denied"));
     vmInfoFromProc := (None, Some (errorString "read cmdline: permission denied")) |}.

(** Container stats under the IDs of a list, and the stand-ins for the two
    reserved IDs. *)
Definition statsOf (ids : list string) : gmap string unit :=
  list_to_map ((λ id, (id, ())) <$> ids).

Definition SystemProcessName : string := "system_processes".
Definition KernelProcessName : string := "kernel_processes".

Definition fifteen : list string :=
  ["c01"; "c02"; "c03"; "c04"; "c05"; "c06"; "c07"; "c08"; "c09"; "c10";
   "c11"; "c12"; "c13"; "c14"; "c15"].

Definition twelve : list string :=
  ["c01"; "c02"; "c03"; "c04"; "c05"; "c06"; "c07"; "c08"; "c09"; "c10";
   "c11"; "c12"].

(** A process whose CPU time cannot be read, and one of which only the
    CPU time can be read. *)
Definition unreadable (pid : Z) : procInfo :=
  {| PID := pid; Comm := inr "sshd"; Executable := inr "/usr/sbin/sshd";
     CPUTime := inl (errorString "read stat: no such process");
     containerInfoFromProc := (None, None); vmInfoFromProc := (None, None) |}.

Definition cpuTimeOnly (pid : Z) (cpu : float64) : procInfo :=
  {| PID := pid; Comm := inl (errorString "read comm: permission denied");
     Executable := inl (errorString "read exe: permission denied");
     CPUTime := inr cpu;
     containerInfoFromProc := (None, Some (errorString "read cgroup: permission denied"));
     vmInfoFromProc := (None, Some (errorString "read cmdline: permission denied")) |}.

(** A process in the container "c1" whose VM lookup fails. *)
Definition containerProcNoVM (pid : Z) (cpu : float64) : procInfo :=
  {| PID := pid; Comm := inr "nginx"; Executable := inr "/usr/sbin/nginx";
     CPUTime := inr cpu;
     containerInfoFromProc := (Some web, None);
     vmInfoFromProc := (None, Some (errorString "read cmdline: permission denied")) |}.

(** The informer after one cycle with a regular process, a process of the
    container "c1" and a process of the VM "vm-1". *)
Definition warmInformer : resourceInformer :=
  run NewInformer [inr [regularProc 7 5; containerProc 9 7.5; vmProc 12 2]].

(** Process stats of the collector. *)
Definition procStats (pid : Z) (idle : N) (containerID vmID : string)
  : collector.ProcessStats.t :=
  collector.ProcessStats.mk pid idle containerID vmID.

(** A collector with two processes, one idle in the VM "vm-1" and one
    active in the container "c01", and with the stats of five VMs. *)
Definition smallCollector : @collector.Collector unit unit :=
  {| collector.ProcessStats :=
       {[ 1%Z := procStats 1 3 "" "vm-1"; 2%Z := procStats 2 0 "c01" "" ]};
     collector.ContainerStats := statsOf ["c01"];
     collector.VMStats := statsOf ["vm-1"; "vm-2"; "vm-3"; "vm-4"; "vm-5"] |}.

End scenarios.

(** * Properties of [calculateVMPower] *)
Section attribution_properties.
Import monitor.
Context `{Units}.

(** What [calculateVMPower] stores for a running VM and a zone of the
    node is the result of the loop body. *)
Lemma calculateVMPower_zoneUsageOf vms prev newSnapshot id c zone nodeZoneUsage :
  resource.VirtualMachines.Running vms !! id = Some c →
  Node.Zones (Node newSnapshot) !! zone = Some nodeZoneUsage →
  zoneUsageOf (calculateVMPower vms prev newSnapshot) id zone
  = Some (vmZoneUsage vms prev id c zone nodeZoneUsage).
Proof.
  intros Hrun Hzone. unfold calculateVMPower.
  destruct (decide (size (resource.VirtualMachines.Running vms) = 0)) as [Hsz|_].
  { apply map_size_empty_inv in Hsz. rewrite Hsz, lookup_empty in Hrun. done. }
  unfold zoneUsageOf; cbn.
  rewrite map_lookup_imap, Hrun; cbn.
  by rewrite map_lookup_imap, Hzone.
Qed.

(** Outside the zero guard the absolute energy is the previous absolute
    energy plus the delta of the cycle. *)
Lemma vmZoneUsage_accumulates vms prev id c zone nodeZoneUsage prevUsage :
  zeroGuard nodeZoneUsage (resource.VirtualMachines.NodeCPUTimeDelta vms) = false →
  zoneUsageOf prev id zone = Some prevUsage →
  Usage.Absolute (vmZoneUsage vms prev id c zone nodeZoneUsage)
  = energy_add (Usage.Absolute prevUsage)
      (Usage.Delta (vmZoneUsage vms prev id c zone nodeZoneUsage)).
Proof.
  intros Hguard Hprev. unfold vmZoneUsage. rewrite Hguard; cbn.
  unfold zoneUsageOf in Hprev.
  destruct (VirtualMachines prev !! id) as [prevVM|]; [|done].
  cbn in Hprev. by rewrite Hprev.
Qed.

(** A pair that the previous snapshot does not have starts with its
    delta, on both branches. *)
Lemma vmZoneUsage_cold_start vms prev id c zone nodeZoneUsage :
  zoneUsageOf prev id zone = None →
  Usage.Absolute (vmZoneUsage vms prev id c zone nodeZoneUsage)
  = Usage.Delta (vmZoneUsage vms prev id c zone nodeZoneUsage).
Proof.
  intros Hprev. unfold vmZoneUsage.
  destruct (zeroGuard _ _); [done|cbn].
  unfold zoneUsageOf in Hprev.
  destruct (VirtualMachines prev !! id) as [prevVM|]; [|done].
  cbn in Hprev. by rewrite Hprev.
Qed.

(** Under the zero guard the stored usage is all zero, the absolute
    energy included. *)
Lemma vmZoneUsage_guarded vms prev id c zone nodeZoneUsage :
  zeroGuard nodeZoneUsage (resource.VirtualMachines.NodeCPUTimeDelta vms) = true →
  vmZoneUsage vms prev id c zone nodeZoneUsage
  = Usage.mk (Power_of_float64 0) (Energy_of_float64 0) (Energy_of_float64 0).
Proof. intros Hguard. unfold vmZoneUsage. by rewrite Hguard. Qed.

(** C2: when the node zone's power is zero, or its delta is zero, or the
    node CPU time delta is zero, the power and the delta stored for any
    running VM in that zone are zero, whatever the VM's CPU time delta. *)
Theorem zero_guard_gives_zero_power_and_delta
    vms prev newSnapshot id c zone nodeZoneUsage :
  resource.VirtualMachines.Running vms !! id = Some c →
  Node.Zones (Node newSnapshot) !! zone = Some nodeZoneUsage →
  power_is_zero (Usage.Power nodeZoneUsage) = true
  ∨ energy_is_zero (Usage.Delta nodeZoneUsage) = true
  ∨ (resource.VirtualMachines.NodeCPUTimeDelta vms =? 0)%float = true →
  ∃ usage,
    zoneUsageOf (calculateVMPower vms prev newSnapshot) id zone = Some usage
    ∧ Usage.Power usage = Power_of_float64 0
    ∧ Usage.Delta usage = Energy_of_float64 0.
Proof.
  intros Hrun Hzone Hzero.
  eexists. split; [by eapply calculateVMPower_zoneUsageOf|].
  rewrite vmZoneUsage_guarded; [done|].
  unfold zeroGuard. destruct Hzero as [->|[->| ->]]; cbn;
    by rewrite ?orb_true_r.
Qed.

(** The attribution outside the zero guard, for any units. *)
Lemma attribution_by_cpu_time_ratio vms prev newSnapshot id c zone nodeZoneUsage :
  resource.VirtualMachines.Running vms !! id = Some c →
  Node.Zones (Node newSnapshot) !! zone = Some nodeZoneUsage →
  zeroGuard nodeZoneUsage (resource.VirtualMachines.NodeCPUTimeDelta vms) = false →
  ∃ usage,
    zoneUsageOf (calculateVMPower vms prev newSnapshot) id zone = Some usage
    ∧ let ratio :=
        (resource.VirtualMachine.CPUTimeDelta c
         / resource.VirtualMachines.NodeCPUTimeDelta vms)%float in
      Usage.Power usage
      = Power_of_float64 (ratio * MicroWatts (Usage.Power nodeZoneUsage))
      ∧ Usage.Delta usage
        = Energy_of_float64 (ratio * float64_of_Energy (Usage.Delta nodeZoneUsage)).
Proof.
  intros Hrun Hzone Hguard.
  eexists. split; [by eapply calculateVMPower_zoneUsageOf|].
  unfold vmZoneUsage. by rewrite Hguard.
Qed.

End attribution_properties.

Section attribution_scenarios.
Import monitor scenarios.

Lemma zero_guard_gives_zero_power_and_delta_witness :
  ∃ usage,
    zoneUsageOf
      (calculateVMPower (oneVM 0 2) (prevSnapshot 7000000)
         (nodeSnapshot 100000000 50000000)) "vm-1" "package" = Some usage
    ∧ Usage.Power usage = 0%float
    ∧ Usage.Delta usage = 0%Z.
Proof.
  apply (zero_guard_gives_zero_power_and_delta
           (oneVM 0 2) (prevSnapshot 7000000) (nodeSnapshot 100000000 50000000)
           "vm-1" (vmWithDelta 2) "package"
           (microUsage 100000000 50000000 0)).
  - reflexivity.
  - reflexivity.
  - right. right. reflexivity.
Defined.

(** C1: for a VM and zone that the previous snapshot has, the absolute
    energy after a cycle should be the previous absolute energy plus the
    delta of the cycle, also when the zero guard makes the delta zero.
    Here the node zone is idle (power 0, delta 0) in the cycle and "vm-1"
    had 7 J in the zone: the guard stores an absolute energy of 0, not the
    7 J plus 0 the invariant asks for. *)
Theorem zero_guard_resets_absolute :
  zoneUsageOf (prevSnapshot 7000000) "vm-1" "package"
  = Some (microUsage 0 0 7000000)
  ∧ zoneUsageOf
      (calculateVMPower (oneVM 10 2) (prevSnapshot 7000000) (nodeSnapshot 0 0))
      "vm-1" "package"
    = Some (microUsage 0 0 0)
  ∧ energy_add 7000000%Z 0%Z = 7000000%Z
  ∧ energy_add 7000000%Z 0%Z ≠ 0%Z.
Proof. repeat split; try reflexivity. discriminate. Qed.

(** C3: outside the zero guard, with [ratio] the VM's CPU time delta
    divided by the node's, the stored power is [ratio] times the node
    zone's power and the stored delta [ratio] times the node zone's delta.
    A node zone of 100 W and 50 J, a node CPU time delta of 10 s and a VM
    with 2 s give 20 W and 10 J.  The ratio is not clamped: a VM with 20 s
    gets 200 W and 100 J. *)
Theorem attribution_is_ratio_times_node_usage :
  (∀ (U : Units) vms prev newSnapshot id c zone nodeZoneUsage,
     resource.VirtualMachines.Running vms !! id = Some c →
     Node.Zones (Node newSnapshot) !! zone = Some nodeZoneUsage →
     zeroGuard nodeZoneUsage (resource.VirtualMachines.NodeCPUTimeDelta vms) = false →
     ∃ usage,
       zoneUsageOf (calculateVMPower vms prev newSnapshot) id zone = Some usage
       ∧ let ratio :=
           (resource.VirtualMachine.CPUTimeDelta c
            / resource.VirtualMachines.NodeCPUTimeDelta vms)%float in
         Usage.Power usage
         = Power_of_float64 (ratio * MicroWatts (Usage.Power nodeZoneUsage))
         ∧ Usage.Delta usage
           = Energy_of_float64
               (ratio * float64_of_Energy (Usage.Delta nodeZoneUsage)))
  ∧ zoneUsageOf
      (calculateVMPower (oneVM 10 2) (nodeSnapshot 0 0)
         (nodeSnapshot 100000000 50000000)) "vm-1" "package"
    = Some (microUsage 20000000 10000000 10000000)
  ∧ zoneUsageOf
      (calculateVMPower (oneVM 10 20) (nodeSnapshot 0 0)
         (nodeSnapshot 100000000 50000000)) "vm-1" "package"
    = Some (microUsage 200000000 100000000 100000000).
Proof.
  split; [|split; reflexivity].
  intros U vms prev newSnapshot id c zone nodeZoneUsage.
  apply attribution_by_cpu_time_ratio.
Qed.

Lemma attribution_is_ratio_times_node_usage_witness :
  ∃ usage,
    zoneUsageOf
      (calculateVMPower (oneVM 10 2) (prevSnapshot 7000000)
         (nodeSnapshot 100000000 50000000)) "vm-1" "package" = Some usage
    ∧ Usage.Power usage = (2 / 10 * 100000000)%float
    ∧ Usage.Delta usage
      = Energy_of_float64 (2 / 10 * float64_of_Energy 50000000%Z).
Proof.
  apply (proj1 attribution_is_ratio_times_node_usage microUnits
           (oneVM 10 2) (prevSnapshot 7000000) (nodeSnapshot 100000000 50000000)
           "vm-1" (vmWithDelta 2) "package"
           (microUsage 100000000 50000000 0)).
  - reflexivity.
  - reflexivity.
  - reflexivity.
Defined.

End attribution_scenarios.

(** * Properties of [handleInactiveContainers] *)
Section eviction_properties.
Import collector.
Context (SystemProcessName KernelProcessName : string) {ContainerStats_t : Type}.
Implicit Types (stats : gmap string ContainerStats_t) (alive found : gset string).

Local Notation evict := (evictContainer SystemProcessName KernelProcessName).
Local Notation handle :=
  (handleInactiveContainers SystemProcessName KernelProcessName).

(** One iteration deletes the container it visits, unless its ID is
    reserved or alive, and touches no other. *)
Lemma evictContainer_lookup alive stats containerID id :
  evict alive stats containerID !! id
  = if decide (id = containerID ∧ id ≠ SystemProcessName
               ∧ id ≠ KernelProcessName ∧ id ∉ alive)
    then None else stats !! id.
Proof.
  unfold evictContainer.
  destruct (decide (containerID = SystemProcessName)) as [Hs|Hs].
  { rewrite bool_decide_eq_true_2 by done. cbn.
    case_decide as Hc; [|done]. destruct Hc as (-> & ? & _). done. }
  rewrite (bool_decide_eq_false_2 _ Hs). cbn.
  destruct (decide (containerID = KernelProcessName)) as [Hk|Hk].
  { rewrite bool_decide_eq_true_2 by done.
    case_decide as Hc; [|done]. destruct Hc as (-> & _ & ? & _). done. }
  rewrite (bool_decide_eq_false_2 _ Hk).
  destruct (decide (containerID ∈ alive)) as [Ha|Ha].
  { case_decide as Hc; [|done]. destruct Hc as (-> & _ & _ & ?). done. }
  destruct (decide (id = containerID)) as [->|Hne].
  - rewrite lookup_delete_eq. by rewrite decide_True.
  - rewrite lookup_delete_ne by done.
    rewrite decide_False; [done|]. intros (? & _). done.
Qed.

(** The loop over the IDs of a list. *)
Lemma evict_loop_lookup alive (ids : list string) stats id :
  fold_left (evict alive) ids stats !! id
  = if decide (id ∈ ids ∧ id ≠ SystemProcessName
               ∧ id ≠ KernelProcessName ∧ id ∉ alive)
    then None else stats !! id.
Proof.
  revert stats. induction ids as [|containerID ids IH]; intros stats; cbn.
  { rewrite decide_False; [done|]. intros (Hin & _). by apply elem_of_nil in Hin. }
  rewrite IH, evictContainer_lookup.
  repeat case_decide; try done.
  - exfalso. set_solver.
  - exfalso. set_solver.
  - exfalso. set_solver.
Qed.

(** The pass, once the threshold is exceeded and the query has succeeded,
    keeps the entries whose ID is reserved or alive and deletes the
    others. *)
Lemma handleInactiveContainers_evicts stats found alive id :
  (Z.of_nat (size stats) - Z.of_nat (size found) > maxInactiveContainers)%Z →
  (handle stats found (inr alive)).1 !! id
  = if decide (id = SystemProcessName ∨ id = KernelProcessName ∨ id ∈ alive)
    then stats !! id else None.
Proof.
  intros Hmany. unfold handleInactiveContainers.
  destruct (Z.leb_spec
              (Z.of_nat (size stats) - Z.of_nat (size found))
              maxInactiveContainers) as [Hle|_]; [lia|].
  cbn. rewrite evict_loop_lookup.
  destruct (stats !! id) as [v|] eqn:Hid; [|by repeat case_decide].
  assert (id ∈ (map_to_list stats).*1) as Hin.
  { apply list_elem_of_fmap. exists (id, v). split; [done|].
    by apply elem_of_map_to_list. }
  destruct (decide (id = SystemProcessName ∨ id = KernelProcessName ∨ id ∈ alive))
    as [Hkept|Hgone].
  - rewrite decide_False; [done|]. intros (_ & ? & ? & ?). naive_solver.
  - rewrite decide_True; [done|]. repeat split; [done|..]; naive_solver.
Qed.

(** The query is made exactly when the threshold is exceeded. *)
Lemma handleInactiveContainers_queries stats found query :
  GetAliveContainers_called ∈ (handle stats found query).2
  ↔ (Z.of_nat (size stats) - Z.of_nat (size found) > maxInactiveContainers)%Z.
Proof.
  unfold handleInactiveContainers.
  destruct (Z.leb_spec
              (Z.of_nat (size stats) - Z.of_nat (size found))
              maxInactiveContainers) as [Hle|Hgt]; cbn.
  - split; [intros Hin; by apply elem_of_nil in Hin|lia].
  - split; [lia|intros _]. destruct query; cbn; apply list_elem_of_here.
Qed.

(** C7: when the query for the alive containers fails, the container stats
    are left as they were, and the error goes to the log line and nowhere
    else. *)
Theorem failed_alive_query_leaves_stats_untouched stats found err :
  (Z.of_nat (size stats) - Z.of_nat (size found) > maxInactiveContainers)%Z →
  handle stats found (inl err)
  = (stats, [GetAliveContainers_called; klog_Infoln err]).
Proof.
  intros Hmany. unfold handleInactiveContainers.
  destruct (Z.leb_spec
              (Z.of_nat (size stats) - Z.of_nat (size found))
              maxInactiveContainers) as [Hle|_]; [lia|done].
Qed.

End eviction_properties.

Section eviction_scenarios.
Import collector scenarios.

Local Notation handle :=
  (handleInactiveContainers SystemProcessName KernelProcessName).

Lemma failed_alive_query_leaves_stats_untouched_witness :
  handle (statsOf twelve) ∅ (inl (errorString "cgroup: no such file"))
  = (statsOf twelve,
     [GetAliveContainers_called;
      klog_Infoln (errorString "cgroup: no such file")]).
Proof.
  apply (failed_alive_query_leaves_stats_untouched
           SystemProcessName KernelProcessName (statsOf twelve) ∅
           (errorString "cgroup: no such file")).
  vm_compute. reflexivity.
Defined.

(** C6, as the code has it: the eviction pass runs exactly when the number
    of cached container stats minus the number of found containers is
    greater than 10; when it runs and the query succeeds, the cached
    containers that are deleted are exactly those absent from the alive
    set, the two reserved IDs excepted, whether or not they are in the
    found set.  With 15 cached containers, 3 of them found, and an alive
    set of those 3 and 2 more of the cached ones, 10 are deleted. *)
Theorem eviction_runs_above_threshold_and_follows_alive_set :
  (∀ (Sys Kern : string) (V : Type) (stats : gmap string V)
     (found : gset string) (query : error + gset string),
     GetAliveContainers_called
       ∈ (handleInactiveContainers Sys Kern stats found query).2
     ↔ (Z.of_nat (size stats) - Z.of_nat (size found) > 10)%Z)
  ∧ (∀ (Sys Kern : string) (V : Type) (stats : gmap string V)
       (found alive : gset string) (id : string),
       (Z.of_nat (size stats) - Z.of_nat (size found) > 10)%Z →
       (handleInactiveContainers Sys Kern stats found (inr alive)).1 !! id
       = if decide (id = Sys ∨ id = Kern ∨ id ∈ alive)
         then stats !! id else None)
  ∧ (let alive : gset string := {["c01"; "c02"; "c03"; "c04"; "c05"]} in
     let stats' := (handle (statsOf fifteen) {["c01"; "c02"; "c03"]} (inr alive)).1 in
     size (statsOf fifteen) = 15
     ∧ dom stats' = alive
     ∧ size (dom (statsOf fifteen) ∖ dom stats') = 10).
Proof.
  split; [|split].
  - intros. apply handleInactiveContainers_queries.
  - intros. by apply handleInactiveContainers_evicts.
  - vm_compute. repeat split; reflexivity.
Qed.

Lemma eviction_runs_above_threshold_and_follows_alive_set_witness :
  (handle (statsOf twelve) {["c01"]} (inr {["c02"]})).1 !! "c02" = Some ()
  ∧ (handle (statsOf twelve) {["c01"]} (inr {["c02"]})).1 !! "c03" = None.
Proof.
  split.
  - rewrite (proj1 (proj2 eviction_runs_above_threshold_and_follows_alive_set)
               SystemProcessName KernelProcessName unit (statsOf twelve)
               {["c01"]} {["c02"]} "c02"); [reflexivity|vm_compute; reflexivity].
  - rewrite (proj1 (proj2 eviction_runs_above_threshold_and_follows_alive_set)
               SystemProcessName KernelProcessName unit (statsOf twelve)
               {["c01"]} {["c02"]} "c03"); [reflexivity|vm_compute; reflexivity].
Defined.

(** C6 as stated fails: a cached container that was found through a
    surviving process, but that the alive set does not list, is deleted,
    though it is not absent from both sets. *)
Lemma found_container_outside_alive_set_is_evicted :
  "c01" ∈ ({["c01"]} : gset string)
  ∧ statsOf twelve !! "c01" = Some ()
  ∧ (handle (statsOf twelve) {["c01"]} (inr ∅)).1 !! "c01" = None.
Proof. repeat split; vm_compute; reflexivity. Qed.

End eviction_scenarios.

(** * Properties of [Refresh] *)

(** ** The "find terminated" loops *)
Section findTerminated_properties.
Import resource.
Context {K V : Type} `{Countable K} (delta : V → float64) (running : gset K).
Implicit Types (acc : float64 * gmap K V * gmap K V) (l : list (K * V)).

Lemma visitCached_total l acc :
  (fold_left (visitCached delta running) l acc).1.1
  = fold_left PrimFloat.add
      (delta ∘ snd <$> filter (λ kv, kv.1 ∈ running) l) acc.1.1.
Proof.
  revert acc. induction l as [|[id obj] l IH]; intros [[total terminated] cache];
    [done|].
  cbn [fold_left]. rewrite IH. unfold visitCached.
  destruct (decide (id ∈ running)) as [Hin|Hout].
  - by rewrite filter_cons_True.
  - by rewrite filter_cons_False.
Qed.

Lemma visitCached_cache l acc id :
  (fold_left (visitCached delta running) l acc).2 !! id
  = if decide (id ∈ l.*1 ∧ id ∉ running) then None else acc.2 !! id.
Proof.
  revert acc. induction l as [|[id' obj] l IH]; intros [[total terminated] cache].
  { cbn. rewrite decide_False; [done|]. intros [Hin _]. by apply elem_of_nil in Hin. }
  rewrite fmap_cons. cbn [fold_left fst]. rewrite IH. unfold visitCached. cbn.
  destruct (decide (id' ∈ running)) as [Hin|Hout]; cbn.
  - repeat case_decide; try done; exfalso; set_solver.
  - destruct (decide (id = id')) as [->|Hne].
    + rewrite lookup_delete_eq. repeat case_decide; try done; exfalso; set_solver.
    + rewrite lookup_delete_ne by done.
      repeat case_decide; try done; exfalso; set_solver.
Qed.

Lemma visitCached_terminated l acc id :
  NoDup l.*1 →
  (fold_left (visitCached delta running) l acc).1.2 !! id
  = match (if decide (id ∈ running) then None
           else (list_to_map l : gmap K V) !! id) with
    | Some obj => Some obj
    | None => acc.1.2 !! id
    end.
Proof.
  revert acc. induction l as [|[id' obj] l IH]; intros [[total terminated] cache] Hnd.
  { cbn. by case_decide. }
  apply NoDup_cons in Hnd as [Hfresh Hnd].
  cbn [fold_left]. rewrite IH by done. unfold visitCached. cbn.
  destruct (decide (id ∈ running)) as [Hin|Hout].
  - destruct (decide (id' ∈ running)); cbn; [done|].
    rewrite lookup_insert_ne; [done|]. intros ->. done.
  - destruct (decide (id = id')) as [->|Hne].
    + rewrite lookup_insert_eq.
      rewrite (not_elem_of_list_to_map_1 l id') by done.
      destruct (decide (id' ∈ running)); [done|]. cbn. by rewrite lookup_insert_eq.
    + rewrite (lookup_insert_ne _ id' id) by done.
      destruct (list_to_map l !! id); [done|].
      destruct (decide (id' ∈ running)); cbn; [done|].
      by rewrite lookup_insert_ne.
Qed.

(** The loop adds up the deltas of the running entries, in the order of
    the [range]. *)
Lemma findTerminated_total cache :
  (findTerminated delta cache running).1.1
  = float64_sum (delta ∘ snd <$> filter (λ kv, kv.1 ∈ running) (map_to_list cache)).
Proof. unfold findTerminated. by rewrite visitCached_total. Qed.

(** The cache is left with the running entries: the objects that the
    running map points to. *)
Lemma findTerminated_cache cache :
  (findTerminated delta cache running).2 = pointees running cache.
Proof.
  apply map_eq. intros id. unfold findTerminated, pointees.
  rewrite visitCached_cache. cbn.
  destruct (cache !! id) as [obj|] eqn:Hid.
  - case_decide as Hc.
    + symmetry. apply map_lookup_filter_None. right. intros obj' _. cbn. tauto.
    + symmetry. apply map_lookup_filter_Some. split; [done|]. cbn.
      destruct (decide (id ∈ running)); [done|]. exfalso. apply Hc. split; [|done].
      apply list_elem_of_fmap. exists (id, obj). split; [done|].
      by apply elem_of_map_to_list.
  - case_decide; symmetry; apply map_lookup_filter_None; by left.
Qed.

(** The terminated map gets the other entries. *)
Lemma findTerminated_terminated cache :
  (findTerminated delta cache running).1.2
  = filter (λ kv, kv.1 ∉ running) cache.
Proof.
  apply map_eq. intros id. unfold findTerminated.
  rewrite visitCached_terminated by apply NoDup_fst_map_to_list.
  rewrite list_to_map_to_list. cbn. rewrite lookup_empty.
  destruct (decide (id ∈ running)) as [Hin|Hout].
  - symmetry. apply map_lookup_filter_None. right. intros obj _. cbn. tauto.
  - destruct (cache !! id) as [obj|] eqn:Hid.
    + symmetry. by apply map_lookup_filter_Some.
    + symmetry. apply map_lookup_filter_None. by left.
Qed.

Lemma findTerminated_eq cache :
  findTerminated delta cache running
  = (float64_sum
       (delta ∘ snd <$> filter (λ kv, kv.1 ∈ running) (map_to_list cache)),
     filter (λ kv, kv.1 ∉ running) cache,
     pointees running cache).
Proof.
  rewrite <- findTerminated_total, <- findTerminated_terminated,
    <- findTerminated_cache.
  by destruct (findTerminated delta cache running) as [[? ?] ?].
Qed.

(** The entries that the loop adds up are the entries of the map it
    leaves, in some order. *)
Lemma running_entries_permutation (cache : gmap K V) :
  filter (λ kv, kv.1 ∈ running) (map_to_list cache)
  ≡ₚ map_to_list (pointees running cache).
Proof.
  unfold pointees. rewrite map_filter_alt.
  symmetry. apply map_to_list_to_map.
  apply NoDup_fmap_fst.
  - intros id x y Hx Hy.
    apply list_elem_of_filter in Hx as [_ Hx], Hy as [_ Hy].
    apply elem_of_map_to_list in Hx, Hy. congruence.
  - apply NoDup_filter, NoDup_map_to_list.
Qed.

Lemma pointees_dom (cache : gmap K V) :
  running ⊆ dom cache → dom (pointees running cache) = running.
Proof.
  intros Hsub. apply set_eq. intros id. unfold pointees.
  rewrite elem_of_dom. split.
  - intros [obj Hobj]. by apply map_lookup_filter_Some in Hobj as [_ ?].
  - intros Hin. pose proof (Hsub id Hin) as [obj Hobj]%elem_of_dom.
    exists obj. by apply map_lookup_filter_Some.
Qed.

Lemma pointees_terminated_disjoint (cache : gmap K V) :
  dom (pointees running cache) ## dom (filter (λ kv, kv.1 ∉ running) cache).
Proof.
  intros id [o1 H1]%elem_of_dom [o2 H2]%elem_of_dom.
  apply map_lookup_filter_Some in H1 as [_ H1], H2 as [_ H2]. cbn in *. done.
Qed.

End findTerminated_properties.

Section Refresh_properties.
Import resource.

(** [Refresh] in one equation: what it publishes and how it leaves the
    caches, from the state of the first loop. *)
Lemma Refresh_eq ri procs :
  Refresh ri (inr procs)
  = let st := scanProcs ri procs in
    (let nodeCPUDelta :=
       float64_sum
         (Process.CPUTimeDelta ∘ snd
            <$> filter (λ kv, kv.1 ∈ procsRunning st)
                  (map_to_list (scan_procCache st))) in
     {| procCache := pointees (procsRunning st) (scan_procCache st);
        processes :=
          Processes.mk nodeCPUDelta
            (pointees (procsRunning st) (scan_procCache st))
            (filter (λ kv, kv.1 ∉ procsRunning st) (scan_procCache st));
        containerCache :=
          pointees (containersRunning st) (scan_containerCache st);
        containers :=
          Containers.mk nodeCPUDelta
            (pointees (containersRunning st) (scan_containerCache st))
            (filter (λ kv, kv.1 ∉ containersRunning st) (scan_containerCache st));
        vmCache := pointees (vmsRunning st) (scan_vmCache st);
        vms :=
          VirtualMachines.mk nodeCPUDelta
            (pointees (vmsRunning st) (scan_vmCache st))
            (filter (λ kv, kv.1 ∉ vmsRunning st) (scan_vmCache st)) |},
     refreshErrs st).
Proof. unfold Refresh. by rewrite !findTerminated_eq. Qed.

End Refresh_properties.

(** ** The first loop of [Refresh] *)
Section scan_properties.
Import resource.
Implicit Types (st : scan) (p : procInfo) (procCache : gmap Z Process.t).

Lemma updateProcessCache_lookup_ne procCache p pid :
  PID p ≠ pid → (updateProcessCache procCache p).1 !! pid = procCache !! pid.
Proof.
  intros Hne. unfold updateProcessCache.
  destruct (procCache !! PID p) as [cached|].
  - destruct (populateProcessFields cached p) as [cached' err]. cbn.
    by rewrite lookup_insert_ne.
  - destruct (newProcess p) as [err|newProc]; cbn; [done|].
    by rewrite lookup_insert_ne.
Qed.

Lemma updateProcessCache_dom procCache p :
  dom procCache ⊆ dom (updateProcessCache procCache p).1.
Proof.
  unfold updateProcessCache.
  destruct (procCache !! PID p) as [cached|].
  - destruct (populateProcessFields cached p) as [cached' err]. cbn.
    rewrite dom_insert_L. set_solver.
  - destruct (newProcess p) as [err|newProc]; cbn; [done|].
    rewrite dom_insert_L. set_solver.
Qed.

(** The process that the call returns is the one that the cache holds
    under its PID. *)
Lemma updateProcessCache_returns procCache p procCache' proc :
  updateProcessCache procCache p = (procCache', inr proc) →
  procCache' !! PID p = Some proc.
Proof.
  unfold updateProcessCache.
  destruct (procCache !! PID p) as [cached|].
  - destruct (populateProcessFields cached p) as [cached' [err|]]; [done|].
    intros [= <- <-]. apply lookup_insert_eq.
  - destruct (newProcess p) as [err|newProc]; [done|].
    intros [= <- <-]. apply lookup_insert_eq.
Qed.

(** A process that is not cached and cannot be read leaves the cache as
    it is. *)
Lemma updateProcessCache_new_fails procCache p err :
  procCache !! PID p = None → newProcess p = inl err →
  updateProcessCache procCache p = (procCache, inl err).
Proof. intros Hnew Hfail. unfold updateProcessCache. by rewrite Hnew, Hfail. Qed.

(** A new process cannot be read as soon as one of the four reads fails. *)
Lemma newProcess_fails p :
  returnsError (CPUTime p) ∨ returnsError (Comm p)
  ∨ returnsError (Executable p) ∨ returnsError (computeTypeInfoFromProc p) →
  returnsError (newProcess p).
Proof.
  unfold returnsError, newProcess, populateProcessFields.
  intros Hfail.
  destruct (CPUTime p) as [e|cpu]; [by eexists|]. cbn.
  destruct (Comm p) as [e|comm]; [by eexists|].
  destruct (Executable p) as [e|exe]; [by eexists|]. cbn.
  destruct (computeTypeInfoFromProc p) as [e|info]; [by eexists|].
  destruct Hfail as [[? [=]]|[[? [=]]|[[? [=]]|[? [=]]]]].
Qed.

Lemma refreshProc_procCache st p :
  scan_procCache (refreshProc st p)
  = (updateProcessCache (scan_procCache st) p).1.
Proof.
  unfold refreshProc.
  destruct (updateProcessCache (scan_procCache st) p) as [procCache' [err|proc]];
    [done|].
  by destruct (Process.Container proc), (Process.VirtualMachine proc).
Qed.

(** A PID that is not cached, and whose processes in the table all fail to
    be read, is not cached after the loop. *)
Lemma scan_failing_pid_stays_out procs st pid :
  scan_procCache st !! pid = None →
  (∀ q, q ∈ procs → PID q = pid → returnsError (newProcess q)) →
  scan_procCache (fold_left refreshProc procs st) !! pid = None.
Proof.
  revert st. induction procs as [|p procs IH]; intros st Hout Hfail; [done|].
  cbn [fold_left]. apply IH.
  - rewrite refreshProc_procCache.
    destruct (decide (PID p = pid)) as [Heq|Hne].
    + destruct (Hfail p) as [err Herr]; [apply list_elem_of_here|done|].
      rewrite (updateProcessCache_new_fails _ _ err) by (by rewrite ?Heq).
      done.
    + by rewrite updateProcessCache_lookup_ne.
  - intros q Hq. apply Hfail. by apply list_elem_of_further.
Qed.

Lemma updateContainerCache_dom containerCache proc c reset :
  Process.Container proc = Some c →
  dom (updateContainerCache containerCache proc reset)
  = {[Container.ID c]} ∪ dom containerCache.
Proof. intros Hc. unfold updateContainerCache. rewrite Hc. apply dom_insert_L. Qed.

Lemma updateVMCache_dom vmCache proc vm reset :
  Process.VirtualMachine proc = Some vm →
  dom (updateVMCache vmCache proc reset)
  = {[VirtualMachine.ID vm]} ∪ dom vmCache.
Proof. intros Hvm. unfold updateVMCache. rewrite Hvm. apply dom_insert_L. Qed.

Lemma refreshProc_wf st p : scan_wf st → scan_wf (refreshProc st p).
Proof.
  intros (Hp & Hc & Hv). unfold refreshProc.
  pose proof (updateProcessCache_dom (scan_procCache st) p) as Hdom.
  destruct (updateProcessCache (scan_procCache st) p)
    as [procCache' [err|proc]] eqn:Hupd; cbn in Hdom.
  { repeat split; cbn; [set_solver|done|done]. }
  apply updateProcessCache_returns in Hupd.
  assert (PID p ∈ dom procCache') as Hpid by (apply elem_of_dom; eauto).
  destruct (Process.Container proc) as [c|] eqn:Hcont;
    [|destruct (Process.VirtualMachine proc) as [vm|] eqn:Hvm].
  - repeat split; cbn; [set_solver| |done].
    rewrite (updateContainerCache_dom _ _ c) by done. set_solver.
  - repeat split; cbn; [set_solver|done|].
    rewrite (updateVMCache_dom _ _ vm) by done. set_solver.
  - repeat split; cbn; [set_solver|done|done].
Qed.

Lemma scanProcs_start_wf ri :
  scan_wf
    {| scan_procCache := procCache ri;
       scan_containerCache := containerCache ri;
       scan_vmCache := vmCache ri;
       procsRunning := ∅; containersRunning := ∅; vmsRunning := ∅;
       refreshErrs := None |}.
Proof. repeat split; cbn; set_solver. Qed.

Lemma scan_loop_wf procs st : scan_wf st → scan_wf (fold_left refreshProc procs st).
Proof.
  revert st. induction procs as [|p procs IH]; intros st Hwf; [done|].
  cbn [fold_left]. by apply IH, refreshProc_wf.
Qed.

(** The PIDs of the other processes do not touch the entry of [pid]. *)
Lemma scan_other_pids procs st pid :
  (∀ q, q ∈ procs → PID q ≠ pid) →
  scan_procCache (fold_left refreshProc procs st) !! pid
  = scan_procCache st !! pid.
Proof.
  revert st. induction procs as [|p procs IH]; intros st Hne; [done|].
  cbn [fold_left]. rewrite IH.
  - rewrite refreshProc_procCache. apply updateProcessCache_lookup_ne.
    apply Hne, list_elem_of_here.
  - intros q Hq. apply Hne. by apply list_elem_of_further.
Qed.

(** A process that was read without an error is marked as running, and
    stays so until the end of the loop. *)
Lemma refreshProc_marks_running st p procCache' proc :
  updateProcessCache (scan_procCache st) p = (procCache', inr proc) →
  PID p ∈ procsRunning (refreshProc st p).
Proof.
  intros Hupd. unfold refreshProc. rewrite Hupd.
  destruct (Process.Container proc), (Process.VirtualMachine proc); cbn;
    set_solver.
Qed.

Lemma refreshProc_running_mono st p :
  procsRunning st ⊆ procsRunning (refreshProc st p).
Proof.
  unfold refreshProc.
  destruct (updateProcessCache (scan_procCache st) p) as [procCache' [err|proc]];
    [done|].
  destruct (Process.Container proc), (Process.VirtualMachine proc); cbn;
    set_solver.
Qed.

Lemma scan_running_mono procs st :
  procsRunning st ⊆ procsRunning (fold_left refreshProc procs st).
Proof.
  revert st. induction procs as [|p procs IH]; intros st; [done|].
  cbn [fold_left]. etrans; [apply refreshProc_running_mono|apply IH].
Qed.

(** A process that [newProcess] returns has the whole CPU time of the
    process as its delta, and is classified. *)
Lemma newProcess_returns p proc :
  newProcess p = inr proc →
  ∃ cpu,
    CPUTime p = inr cpu
    ∧ Process.CPUTimeDelta proc = (cpu - 0)%float
    ∧ Process.Type_ proc ≠ UnknownProcess.
Proof.
  unfold newProcess, populateProcessFields.
  destruct (CPUTime p) as [e|cpu]; [done|]. cbn.
  destruct (Comm p) as [e|comm]; [done|].
  destruct (Executable p) as [e|exe]; [done|]. cbn.
  unfold computeTypeInfoFromProc.
  destruct (containerInfoFromProc p) as [[c|] [cerr|]],
    (vmInfoFromProc p) as [[v|] [verr|]]; cbn; intros [= <-];
    exists cpu; repeat split; done.
Qed.

(** Reading a cached process again leaves its type as it is, once it has
    one. *)
Lemma populateProcessFields_keeps_type cached p :
  Process.Type_ cached ≠ UnknownProcess →
  Process.Type_ (populateProcessFields cached p).1 ≠ UnknownProcess.
Proof.
  intros Htype. unfold populateProcessFields.
  destruct (CPUTime p) as [e|cpu]; [done|]. cbn.
  destruct (_ && _); [done|].
  destruct (Comm p) as [e|comm]; [done|].
  destruct (Executable p) as [e|exe]; [done|]. cbn.
  destruct (decide (Process.Type_ cached = UnknownProcess)); done.
Qed.

Lemma updateProcessCache_classified procCache p :
  (∀ pid proc, procCache !! pid = Some proc →
     Process.Type_ proc ≠ UnknownProcess) →
  ∀ pid proc, (updateProcessCache procCache p).1 !! pid = Some proc →
    Process.Type_ proc ≠ UnknownProcess.
Proof.
  intros Hall pid proc. unfold updateProcessCache.
  destruct (procCache !! PID p) as [cached|] eqn:Hcached.
  - pose proof (populateProcessFields_keeps_type cached p (Hall _ _ Hcached))
      as Hkeeps.
    destruct (populateProcessFields cached p) as [cached' err]. cbn in *.
    destruct (decide (PID p = pid)) as [<-|Hne].
    + rewrite lookup_insert_eq. by intros [= <-].
    + rewrite lookup_insert_ne by done. apply Hall.
  - destruct (newProcess p) as [err|newProc] eqn:Hnew; cbn; [apply Hall|].
    destruct (decide (PID p = pid)) as [<-|Hne].
    + rewrite lookup_insert_eq. intros [= <-].
      by destruct (newProcess_returns p newProc Hnew) as (cpu & _ & _ & ?).
    + rewrite lookup_insert_ne by done. apply Hall.
Qed.

Lemma scan_classified procs st :
  (∀ pid proc, scan_procCache st !! pid = Some proc →
     Process.Type_ proc ≠ UnknownProcess) →
  ∀ pid proc, scan_procCache (fold_left refreshProc procs st) !! pid = Some proc →
    Process.Type_ proc ≠ UnknownProcess.
Proof.
  revert st. induction procs as [|p procs IH]; intros st Hall; [done|].
  cbn [fold_left]. apply IH. rewrite refreshProc_procCache.
  by apply updateProcessCache_classified.
Qed.

End scan_properties.

(** ** Reset, then accumulate *)
Section delta_properties.
Import resource.
Implicit Types (st : scan) (p : procInfo).

(** One iteration adds the delta of the process to what the cycle has
    given its container so far, and leaves the other containers alone. *)
Lemma refreshProc_containerDelta st p id :
  scan_wf st →
  containerDeltaSoFar (refreshProc st p) id
  = match (updateProcessCache (scan_procCache st) p).2 with
    | inl _ => containerDeltaSoFar st id
    | inr proc =>
        if decide (inContainer id proc)
        then (containerDeltaSoFar st id + Process.CPUTimeDelta proc)%float
        else containerDeltaSoFar st id
    end.
Proof.
  intros (_ & Hc & _). unfold refreshProc.
  destruct (updateProcessCache (scan_procCache st) p) as [procCache' [err|proc]];
    [done|]. cbn [snd].
  destruct (decide (inContainer id proc)) as [Hin|Hout]; unfold inContainer in *.
  - destruct (Process.Container proc) as [c|] eqn:Hcont; [|done].
    injection Hin as <-.
    unfold containerDeltaSoFar, updateContainerCache. cbn. rewrite Hcont.
    rewrite decide_True by set_solver. rewrite lookup_insert_eq. cbn.
    destruct (decide (Container.ID c ∈ containersRunning st)) as [Hseen|Hnew].
    + rewrite bool_decide_eq_true_2 by done. cbn.
      pose proof (Hc _ Hseen) as [cached Hcached]%elem_of_dom.
      by rewrite Hcached.
    + by rewrite bool_decide_eq_false_2.
  - destruct (Process.Container proc) as [c|] eqn:Hcont.
    + assert (Container.ID c ≠ id) by (intros <-; by apply Hout).
      unfold containerDeltaSoFar, updateContainerCache. cbn. rewrite Hcont.
      rewrite lookup_insert_ne by done.
      destruct (decide (id ∈ containersRunning st)).
      * by rewrite decide_True by set_solver.
      * by rewrite decide_False by set_solver.
    + by destruct (Process.VirtualMachine proc).
Qed.

Lemma refreshProc_vmDelta st p id :
  scan_wf st →
  vmDeltaSoFar (refreshProc st p) id
  = match (updateProcessCache (scan_procCache st) p).2 with
    | inl _ => vmDeltaSoFar st id
    | inr proc =>
        if decide (inVM id proc)
        then (vmDeltaSoFar st id + Process.CPUTimeDelta proc)%float
        else vmDeltaSoFar st id
    end.
Proof.
  intros (_ & _ & Hv). unfold refreshProc.
  destruct (updateProcessCache (scan_procCache st) p) as [procCache' [err|proc]];
    [done|]. cbn [snd].
  destruct (decide (inVM id proc)) as [Hin|Hout]; unfold inVM in *.
  - destruct Hin as [Hcont Hin]. rewrite Hcont.
    destruct (Process.VirtualMachine proc) as [vm|] eqn:Hvm; [|done].
    injection Hin as <-.
    unfold vmDeltaSoFar, updateVMCache. cbn. rewrite Hvm.
    rewrite decide_True by set_solver. rewrite lookup_insert_eq. cbn.
    destruct (decide (VirtualMachine.ID vm ∈ vmsRunning st)) as [Hseen|Hnew].
    + rewrite bool_decide_eq_true_2 by done. cbn.
      pose proof (Hv _ Hseen) as [cached Hcached]%elem_of_dom.
      by rewrite Hcached.
    + by rewrite bool_decide_eq_false_2.
  - destruct (Process.Container proc) as [c|] eqn:Hcont; [done|].
    destruct (Process.VirtualMachine proc) as [vm|] eqn:Hvm; [|done].
    assert (VirtualMachine.ID vm ≠ id) by (intros <-; by apply Hout).
    unfold vmDeltaSoFar, updateVMCache. cbn. rewrite Hvm.
    rewrite lookup_insert_ne by done.
    destruct (decide (id ∈ vmsRunning st)).
    + by rewrite decide_True by set_solver.
    + by rewrite decide_False by set_solver.
Qed.

(** Over the whole loop: the container gets the deltas of the processes
    grouped under it, added one after the other. *)
Lemma scan_containerDelta procs st id :
  scan_wf st →
  containerDeltaSoFar (fold_left refreshProc procs st) id
  = fold_left PrimFloat.add
      (Process.CPUTimeDelta
         <$> filter (inContainer id) (refreshedProcs (scan_procCache st) procs))
      (containerDeltaSoFar st id).
Proof.
  revert st. induction procs as [|p procs IH]; intros st Hwf; [done|].
  cbn [fold_left refreshedProcs].
  rewrite IH by (by apply refreshProc_wf).
  rewrite refreshProc_procCache, refreshProc_containerDelta by done.
  destruct (updateProcessCache (scan_procCache st) p) as [procCache' [err|proc]];
    cbn [fst snd]; [done|].
  destruct (decide (inContainer id proc)).
  - by rewrite filter_cons_True.
  - by rewrite filter_cons_False.
Qed.

Lemma scan_vmDelta procs st id :
  scan_wf st →
  vmDeltaSoFar (fold_left refreshProc procs st) id
  = fold_left PrimFloat.add
      (Process.CPUTimeDelta
         <$> filter (inVM id) (refreshedProcs (scan_procCache st) procs))
      (vmDeltaSoFar st id).
Proof.
  revert st. induction procs as [|p procs IH]; intros st Hwf; [done|].
  cbn [fold_left refreshedProcs].
  rewrite IH by (by apply refreshProc_wf).
  rewrite refreshProc_procCache, refreshProc_vmDelta by done.
  destruct (updateProcessCache (scan_procCache st) p) as [procCache' [err|proc]];
    cbn [fst snd]; [done|].
  destruct (decide (inVM id proc)).
  - by rewrite filter_cons_True.
  - by rewrite filter_cons_False.
Qed.

(** What [Refresh] publishes for a running container and a running VM. *)
Lemma Refresh_container_delta ri procs id c :
  Containers.Running (containers (Refresh ri (inr procs)).1) !! id = Some c →
  Container.CPUTimeDelta c
  = float64_sum
      (Process.CPUTimeDelta
         <$> filter (inContainer id) (refreshedProcs (procCache ri) procs)).
Proof.
  rewrite Refresh_eq. cbn. unfold pointees.
  intros [Hc Hin]%map_lookup_filter_Some. cbn in Hin.
  pose proof (scan_containerDelta procs _ id (scanProcs_start_wf ri)) as Hsum.
  fold (scanProcs ri procs) in Hsum.
  unfold containerDeltaSoFar at 1 in Hsum.
  rewrite decide_True, Hc in Hsum by done. cbn in Hsum.
  rewrite Hsum. unfold containerDeltaSoFar. cbn.
  by rewrite decide_False by set_solver.
Qed.

Lemma Refresh_vm_delta ri procs id vm :
  VirtualMachines.Running (vms (Refresh ri (inr procs)).1) !! id = Some vm →
  VirtualMachine.CPUTimeDelta vm
  = float64_sum
      (Process.CPUTimeDelta
         <$> filter (inVM id) (refreshedProcs (procCache ri) procs)).
Proof.
  rewrite Refresh_eq. cbn. unfold pointees.
  intros [Hc Hin]%map_lookup_filter_Some. cbn in Hin.
  pose proof (scan_vmDelta procs _ id (scanProcs_start_wf ri)) as Hsum.
  fold (scanProcs ri procs) in Hsum.
  unfold vmDeltaSoFar at 1 in Hsum.
  rewrite decide_True, Hc in Hsum by done. cbn in Hsum.
  rewrite Hsum. unfold vmDeltaSoFar. cbn.
  by rewrite decide_False by set_solver.
Qed.

End delta_properties.

(** ** What [Refresh] publishes *)
Section Refresh_claims.
Import resource.
Implicit Types (st : scan) (p q : procInfo) (ri : resourceInformer).

Lemma Refresh_consistent ri AllProcs :
  consistent ri → consistent (Refresh ri AllProcs).1.
Proof.
  intros Hri. destruct AllProcs as [err|procs]; [done|].
  rewrite Refresh_eq. cbn.
  repeat split; try done; apply pointees_terminated_disjoint.
Qed.

Lemma run_consistent cycles ri : consistent ri → consistent (run ri cycles).
Proof.
  revert ri. induction cycles as [|AllProcs cycles IH]; intros ri Hri; [done|].
  cbn. by apply IH, Refresh_consistent.
Qed.

(** The published running sets have the keys that the Go maps have: those
    that the first loop marked as running. *)
Lemma Refresh_running_keys ri procs :
  let st := scanProcs ri procs in
  let ri' := (Refresh ri (inr procs)).1 in
  dom (Processes.Running (processes ri')) = procsRunning st
  ∧ dom (Containers.Running (containers ri')) = containersRunning st
  ∧ dom (VirtualMachines.Running (vms ri')) = vmsRunning st.
Proof.
  cbn zeta. rewrite Refresh_eq. cbn.
  destruct (scan_loop_wf procs _ (scanProcs_start_wf ri)) as (Hp & Hc & Hv).
  fold (scanProcs ri procs) in Hp, Hc, Hv.
  repeat split; by apply pointees_dom.
Qed.

(** Every cached process is classified: the classification only ever runs
    for a process that is not cached. *)
Lemma cached_processes_are_classified cycles pid proc :
  procCache (run NewInformer cycles) !! pid = Some proc →
  Process.Type_ proc ≠ UnknownProcess.
Proof.
  assert (∀ ri,
            (∀ pid proc, procCache ri !! pid = Some proc →
               Process.Type_ proc ≠ UnknownProcess) →
            ∀ pid proc, procCache (run ri cycles) !! pid = Some proc →
              Process.Type_ proc ≠ UnknownProcess) as Hrun.
  { induction cycles as [|AllProcs cycles IH]; intros ri Hri; [done|].
    cbn. apply IH. destruct AllProcs as [err|procs]; [done|].
    rewrite Refresh_eq. cbn. unfold pointees.
    intros pid' proc' [Hscan _]%map_lookup_filter_Some.
    revert Hscan. unfold scanProcs. by apply scan_classified. }
  revert pid proc. apply Hrun. intros pid proc. cbn. by rewrite lookup_empty.
Qed.

(** A process that the cycle sees for the first time, and reads without
    an error, is published as running with its whole CPU time as delta. *)
Lemma Refresh_new_process_running ri l1 p l2 proc :
  procCache ri !! PID p = None →
  (∀ q, q ∈ l1 ++ l2 → PID q ≠ PID p) →
  newProcess p = inr proc →
  Processes.Running (processes (Refresh ri (inr (l1 ++ p :: l2))).1) !! PID p
  = Some proc.
Proof.
  intros Hnew Hothers Hread. rewrite Refresh_eq. cbn. unfold pointees, scanProcs.
  rewrite fold_left_app. cbn [fold_left].
  set (st1 := fold_left refreshProc l1 _).
  assert (scan_procCache st1 !! PID p = None) as Hst1.
  { unfold st1. rewrite scan_other_pids; [done|].
    intros q Hq. apply Hothers, elem_of_app. by left. }
  assert (updateProcessCache (scan_procCache st1) p
          = (<[PID p := proc]> (scan_procCache st1), inr proc)) as Hupd.
  { unfold updateProcessCache. by rewrite Hst1, Hread. }
  apply map_lookup_filter_Some. split.
  - rewrite scan_other_pids.
    + rewrite refreshProc_procCache, Hupd. apply lookup_insert_eq.
    + intros q Hq. apply Hothers, elem_of_app. by right.
  - cbn. apply scan_running_mono. by eapply refreshProc_marks_running.
Qed.

(** C9: after every call of [Refresh], whether it returns nil or an error,
    the process cache holds exactly the PIDs of the published running set,
    and the published running and terminated sets are disjoint; likewise
    for the container cache and the VM cache. *)
Theorem caches_agree_with_published_sets cycles :
  consistent (run NewInformer cycles).
Proof.
  apply run_consistent. unfold consistent, NewInformer. cbn.
  repeat split; set_solver.
Qed.

(** C4, as the code has it: the published node CPU time delta is the sum
    of the CPU time deltas of the processes of the published running set,
    taken in the order of the [range] over the cache; the processes seen
    for the first time in the cycle are among them, each with its whole
    CPU time as delta.  It is 0 when no process is running, and the three
    published structures carry the same value. *)
Theorem node_cpu_delta_sums_the_running_processes ri procs :
  let ri' := (Refresh ri (inr procs)).1 in
  (∃ entries,
     entries ≡ₚ map_to_list (Processes.Running (processes ri'))
     ∧ Processes.NodeCPUTimeDelta (processes ri')
       = float64_sum (Process.CPUTimeDelta ∘ snd <$> entries))
  ∧ (∀ l1 p l2 proc,
       procs = l1 ++ p :: l2 →
       procCache ri !! PID p = None →
       (∀ q, q ∈ l1 ++ l2 → PID q ≠ PID p) →
       newProcess p = inr proc →
       Processes.Running (processes ri') !! PID p = Some proc
       ∧ ∃ cpu, CPUTime p = inr cpu
                ∧ Process.CPUTimeDelta proc = (cpu - 0)%float)
  ∧ (Processes.Running (processes ri') = ∅ →
     Processes.NodeCPUTimeDelta (processes ri') = 0%float)
  ∧ Containers.NodeCPUTimeDelta (containers ri')
    = Processes.NodeCPUTimeDelta (processes ri')
  ∧ VirtualMachines.NodeCPUTimeDelta (vms ri')
    = Processes.NodeCPUTimeDelta (processes ri').
Proof.
  cbn zeta. split; [|split].
  - rewrite Refresh_eq. cbn. eexists.
    split; [apply running_entries_permutation|done].
  - intros l1 p l2 proc -> Hnew Hothers Hread.
    split; [by apply Refresh_new_process_running|].
    destruct (newProcess_returns p proc Hread) as (cpu & ? & ? & _). eauto.
  - rewrite Refresh_eq. cbn.
    set (st := scanProcs ri procs).
    pose proof (running_entries_permutation (procsRunning st) (scan_procCache st))
      as Hperm.
    split; [|done].
    intros Hnone. rewrite Hnone, map_to_list_empty in Hperm.
    apply Permutation_nil_r in Hperm. by rewrite Hperm.
Qed.

(** C5: a running container's CPU time delta after [Refresh] is the sum of
    the deltas of the processes that the cycle grouped under it, added in
    the order of the process table starting from zero, whatever delta the
    cache held from the cycles before; the same holds for a running VM.
    A container whose delta was 7.5 s and whose two processes contribute
    0.4 s and 0.6 s in the next cycle reports 1.0 s. *)
Theorem container_delta_is_reset_then_accumulated :
  (∀ ri procs id c,
     Containers.Running (containers (Refresh ri (inr procs)).1) !! id = Some c →
     Container.CPUTimeDelta c
     = float64_sum
         (Process.CPUTimeDelta
            <$> filter (inContainer id) (refreshedProcs (procCache ri) procs)))
  ∧ (∀ ri procs id vm,
       VirtualMachines.Running (vms (Refresh ri (inr procs)).1) !! id = Some vm →
       VirtualMachine.CPUTimeDelta vm
       = float64_sum
           (Process.CPUTimeDelta
              <$> filter (inVM id) (refreshedProcs (procCache ri) procs)))
  ∧ (let before := run NewInformer [inr [scenarios.containerProc 9 7.5]] in
     let after :=
       (Refresh before
          (inr [scenarios.containerProc 10 0.4; scenarios.containerProc 11 0.6])).1 in
     Container.CPUTimeDelta <$> Containers.Running (containers before) !! "c1"
     = Some 7.5%float
     ∧ Container.CPUTimeDelta <$> Containers.Running (containers after) !! "c1"
       = Some 1%float).
Proof.
  split; [|split].
  - apply Refresh_container_delta.
  - apply Refresh_vm_delta.
  - split; vm_compute; reflexivity.
Qed.

(** What the classification returns when both lookups fail. *)
Lemma computeTypeInfoFromProc_both_fail p c v cerr verr :
  containerInfoFromProc p = (c, Some cerr) →
  vmInfoFromProc p = (v, Some verr) →
  computeTypeInfoFromProc p = inl (joinError [cerr; verr]).
Proof.
  intros Hc Hv. unfold computeTypeInfoFromProc. rewrite Hc, Hv.
  by destruct c, v.
Qed.

Lemma newProcess_unclassifiable p c v cerr verr cpu comm exe :
  CPUTime p = inr cpu → Comm p = inr comm → Executable p = inr exe →
  containerInfoFromProc p = (c, Some cerr) →
  vmInfoFromProc p = (v, Some verr) →
  newProcess p
  = inl (wrapError "failed to detect process type" (joinError [cerr; verr])).
Proof.
  intros Hcpu Hcomm Hexe Hc Hv. unfold newProcess, populateProcessFields.
  rewrite Hcpu. cbn. rewrite Hcomm, Hexe. cbn.
  by rewrite (computeTypeInfoFromProc_both_fail p c v cerr verr).
Qed.

(** An error that [refreshErrs] has joined stays in it. *)
Lemma refreshProc_keeps_error st p e old :
  refreshErrs st = Some old → joins e old →
  ∃ new, refreshErrs (refreshProc st p) = Some new ∧ joins e new.
Proof.
  intros Hold Hjoins. unfold refreshProc.
  destruct (updateProcessCache (scan_procCache st) p) as [procCache' [err|proc]].
  - cbn. rewrite Hold. eexists. split; [done|].
    eapply joins_member; [apply list_elem_of_here|done].
  - exists old.
    by destruct (Process.Container proc), (Process.VirtualMachine proc).
Qed.

Lemma scan_keeps_error procs st e old :
  refreshErrs st = Some old → joins e old →
  ∃ new, refreshErrs (fold_left refreshProc procs st) = Some new ∧ joins e new.
Proof.
  revert st old. induction procs as [|p procs IH]; intros st old Hold Hjoins.
  { by exists old. }
  cbn [fold_left].
  destruct (refreshProc_keeps_error st p e old) as (new & Hnew & Hjoins');
    [done..|].
  by eapply IH.
Qed.

(** The iteration for a process that is not cached and cannot be read
    joins the error. *)
Lemma refreshProc_joins_error st p err :
  scan_procCache st !! PID p = None → newProcess p = inl err →
  ∃ new, refreshErrs (refreshProc st p) = Some new ∧ joins err new.
Proof.
  intros Hnew Hfail. unfold refreshProc.
  rewrite (updateProcessCache_new_fails _ _ err) by done. cbn.
  destruct (refreshErrs st) as [old|]; cbn; eexists; (split; [done|]).
  - eapply joins_member; [|apply joins_here].
    apply list_elem_of_further, list_elem_of_here.
  - eapply joins_member; [|apply joins_here]. apply list_elem_of_here.
Qed.

Lemma Refresh_failing_pid_stays_out ri procs pid :
  procCache ri !! pid = None →
  (∀ q, q ∈ procs → PID q = pid → returnsError (newProcess q)) →
  let ri' := (Refresh ri (inr procs)).1 in
  procCache ri' !! pid = None
  ∧ Processes.Running (processes ri') !! pid = None
  ∧ Processes.Terminated (processes ri') !! pid = None.
Proof.
  intros Hout Hfail. cbn zeta. rewrite Refresh_eq. cbn.
  assert (scan_procCache (scanProcs ri procs) !! pid = None) as Hscan.
  { unfold scanProcs. by apply scan_failing_pid_stays_out. }
  unfold pointees.
  repeat split; apply map_lookup_filter_None; by left.
Qed.

(** C10: when the fields of a process that is not cached cannot be read
    (the CPU time, the command, the executable or the classification
    returns an error), [Refresh] adds no entry for its PID to the process
    cache, and the PID is in neither the running nor the terminated set
    that the cycle publishes. *)
Theorem unreadable_new_process_is_left_out ri procs pid :
  procCache ri !! pid = None →
  (∀ q, q ∈ procs → PID q = pid →
     returnsError (CPUTime q) ∨ returnsError (Comm q)
     ∨ returnsError (Executable q)
     ∨ returnsError (computeTypeInfoFromProc q)) →
  let ri' := (Refresh ri (inr procs)).1 in
  procCache ri' !! pid = None
  ∧ Processes.Running (processes ri') !! pid = None
  ∧ Processes.Terminated (processes ri') !! pid = None.
Proof.
  intros Hout Hfail. apply Refresh_failing_pid_stays_out; [done|].
  intros q Hq Hpid. by apply newProcess_fails, Hfail.
Qed.

(** C8, as the code has it: when both classification lookups of a process
    that is not cached return errors, [Refresh] returns an error that
    joins the two, wrapped as a failure to detect the process type; the
    process is not added to the process cache and is in neither published
    set, so the next cycle meets it as a new process and classifies it
    again. *)
Theorem classification_failure_is_surfaced_and_not_cached
    ri procs p c v cerr verr cpu comm exe :
  p ∈ procs →
  (∀ q, q ∈ procs → PID q = PID p → q = p) →
  procCache ri !! PID p = None →
  CPUTime p = inr cpu → Comm p = inr comm → Executable p = inr exe →
  containerInfoFromProc p = (c, Some cerr) →
  vmInfoFromProc p = (v, Some verr) →
  let result := Refresh ri (inr procs) in
  (∃ err,
     result.2 = Some err
     ∧ joins (wrapError "failed to detect process type" (joinError [cerr; verr]))
         err)
  ∧ procCache result.1 !! PID p = None
  ∧ Processes.Running (processes result.1) !! PID p = None
  ∧ Processes.Terminated (processes result.1) !! PID p = None
  ∧ (∀ p', PID p' = PID p →
       (updateProcessCache (procCache result.1) p').2 = newProcess p').
Proof.
  intros Hin Huniq Hout Hcpu Hcomm Hexe Hc Hv.
  pose proof (newProcess_unclassifiable p c v cerr verr cpu comm exe
                Hcpu Hcomm Hexe Hc Hv) as Hfail.
  assert (∀ q, q ∈ procs → PID q = PID p → returnsError (newProcess q))
    as Hallfail.
  { intros q Hq Hpid. rewrite (Huniq q Hq Hpid). by eexists. }
  destruct (Refresh_failing_pid_stays_out ri procs (PID p) Hout Hallfail)
    as (Hcache & Hrun & Hterm).
  cbn zeta. split; [|repeat split; try done].
  - rewrite Refresh_eq. cbn. unfold scanProcs.
    apply list_elem_of_split in Hin as (l1 & l2 & ->).
    rewrite fold_left_app. cbn [fold_left].
    set (st1 := fold_left refreshProc l1 _).
    assert (scan_procCache st1 !! PID p = None) as Hst1.
    { apply scan_failing_pid_stays_out; [done|].
      intros q Hq. apply Hallfail. apply elem_of_app. by left. }
    destruct (refreshProc_joins_error st1 p _ Hst1 Hfail) as (new & Hnew & Hj).
    by eapply scan_keeps_error.
  - intros p' Hpid. unfold updateProcessCache. rewrite Hpid, Hcache.
    by destruct (newProcess p').
Qed.

End Refresh_claims.

Section Refresh_scenarios.
Import resource scenarios.

Lemma node_cpu_delta_sums_the_running_processes_witness :
  Processes.NodeCPUTimeDelta (processes (Refresh NewInformer (inr [])).1)
  = 0%float.
Proof.
  apply (proj1 (proj2 (proj2
           (node_cpu_delta_sums_the_running_processes NewInformer [])))).
  vm_compute. reflexivity.
Defined.

(** C4 as stated fails.  With an empty cache, no process of the cycle was
    known before, yet the one process that the cycle sees for the first
    time contributes its whole CPU time of 5 s to the node delta.  And the
    node delta is negative when a CPU time reading goes backwards, as it
    does when the PID now belongs to another process. *)
Lemma new_process_counts_in_node_cpu_delta :
  procCache NewInformer = ∅
  ∧ Processes.NodeCPUTimeDelta
      (processes (Refresh NewInformer (inr [regularProc 7 5])).1) = 5%float
  ∧ (5 =? 0)%float = false
  ∧ Processes.NodeCPUTimeDelta
      (processes
         (Refresh (Refresh NewInformer (inr [regularProc 7 5])).1
            (inr [regularProc 7 3])).1) = (-2)%float
  ∧ (-2 <? 0)%float = true.
Proof. repeat split; vm_compute; reflexivity. Qed.

Lemma container_delta_is_reset_then_accumulated_witness :
  1%float
  = float64_sum
      (Process.CPUTimeDelta
         <$> filter (inContainer "c1")
               (refreshedProcs
                  (procCache (run NewInformer [inr [containerProc 9 7.5]]))
                  [containerProc 10 0.4; containerProc 11 0.6])).
Proof.
  apply (proj1 container_delta_is_reset_then_accumulated
           (run NewInformer [inr [containerProc 9 7.5]])
           [containerProc 10 0.4; containerProc 11 0.6]
           "c1" (Container.mk "c1" "web" "crio" 8.5 1)).
  vm_compute. reflexivity.
Defined.

Lemma unreadable_new_process_is_left_out_witness :
  let ri' :=
    (Refresh NewInformer (inr [regularProc 7 5; unclassifiable 8 1])).1 in
  procCache ri' !! 8%Z = None
  ∧ Processes.Running (processes ri') !! 8%Z = None
  ∧ Processes.Terminated (processes ri') !! 8%Z = None.
Proof.
  apply (unreadable_new_process_is_left_out
           NewInformer [regularProc 7 5; unclassifiable 8 1] 8%Z).
  - reflexivity.
  - intros q Hq Hpid.
    apply elem_of_cons in Hq as [->|Hq]; [discriminate Hpid|].
    apply list_elem_of_singleton in Hq as ->.
    right. right. right. eexists. reflexivity.
Defined.

Lemma classification_failure_is_surfaced_and_not_cached_witness :
  let result := Refresh NewInformer (inr [regularProc 7 5; unclassifiable 8 1]) in
  (∃ err,
     result.2 = Some err
     ∧ joins
         (wrapError "failed to detect process type"
            (joinError
               [errorString "read cgroup: permission denied";
                errorString "read cmdline: permission denied"]))
         err)
  ∧ procCache result.1 !! 8%Z = None
  ∧ Processes.Running (processes result.1) !! 8%Z = None
  ∧ Processes.Terminated (processes result.1) !! 8%Z = None
  ∧ (∀ p', PID p' = 8%Z →
       (updateProcessCache (procCache result.1) p').2 = newProcess p').
Proof.
  apply (classification_failure_is_surfaced_and_not_cached
           NewInformer [regularProc 7 5; unclassifiable 8 1]
           (unclassifiable 8 1) None None
           (errorString "read cgroup: permission denied")
           (errorString "read cmdline: permission denied")
           1%float "job" "/usr/bin/job").
  - apply list_elem_of_further, list_elem_of_here.
  - intros q Hq Hpid.
    apply elem_of_cons in Hq as [->|Hq]; [discriminate Hpid|].
    by apply list_elem_of_singleton in Hq.
  - reflexivity.
  - reflexivity.
  - reflexivity.
  - reflexivity.
  - reflexivity.
  - reflexivity.
Defined.

(** C8 as stated fails: the process whose two classification lookups fail
    is not left in the process cache with an unknown type; the cache has
    no entry for its PID after the cycle, and neither has the running
    set. *)
Lemma unclassifiable_process_is_not_cached :
  let result := Refresh NewInformer (inr [unclassifiable 8 1]) in
  result.2
  = Some
      (joinError
         [wrapError "failed to detect process type"
            (joinError
               [errorString "read cgroup: permission denied";
                errorString "read cmdline: permission denied"])])
  ∧ procCache result.1 !! 8%Z = None
  ∧ Processes.Running (processes result.1) !! 8%Z = None.
Proof. repeat split; vm_compute; reflexivity. Qed.

End Refresh_scenarios.

(** * Further properties of the informer *)

(** ** The classification of a process *)
Section classification_properties.
Import resource.
Implicit Types (p : procInfo) (cached proc : Process.t).

(** [computeTypeInfoFromProc] returns an error exactly when neither lookup
    gave a usable result and at least one of them returned an error: the
    error of one lookup is dropped when the other lookup finds a container
    or a VM. *)
Theorem classification_fails_iff_nothing_found_and_a_lookup_failed p :
  returnsError (computeTypeInfoFromProc p)
  ↔ ¬ usable (containerInfoFromProc p) ∧ ¬ usable (vmInfoFromProc p)
    ∧ ((containerInfoFromProc p).2 ≠ None ∨ (vmInfoFromProc p).2 ≠ None).
Proof.
  unfold returnsError, computeTypeInfoFromProc, usable, is_Some.
  destruct (containerInfoFromProc p) as [[c|] [cerr|]],
    (vmInfoFromProc p) as [[v|] [verr|]]; cbn; naive_solver.
Qed.

(** What [computeTypeInfoFromProc] returns without an error says which
    lookup it used.  A container that was found without an error wins,
    whatever the VM lookup returned; a VM is used only when the container
    lookup gave nothing usable; and a process is regular only when both
    lookups returned nil and no error.  The type is never unknown, and the
    pointer of the other kind is nil. *)
Theorem classification_result_names_the_lookup_used p info :
  computeTypeInfoFromProc p = inr info →
  match Type_ info with
  | UnknownProcess => False
  | ContainerProcess =>
      containerInfoFromProc p = (Container info, None)
      ∧ is_Some (Container info) ∧ VM info = None
  | VMProcess =>
      ¬ usable (containerInfoFromProc p)
      ∧ vmInfoFromProc p = (VM info, None)
      ∧ is_Some (VM info) ∧ Container info = None
  | RegularProcess =>
      containerInfoFromProc p = (None, None)
      ∧ vmInfoFromProc p = (None, None)
      ∧ Container info = None ∧ VM info = None
  end.
Proof.
  unfold computeTypeInfoFromProc, usable.
  destruct (containerInfoFromProc p) as [[c|] [cerr|]],
    (vmInfoFromProc p) as [[v|] [verr|]]; cbn; intros [= <-]; cbn;
    repeat split; eauto; by intros [[? [=]] [=]].
Qed.

(** A process that [newProcess] returns is stored under the PID of the
    table entry, and its type tag agrees with its pointers. *)
Lemma newProcess_tagged p proc :
  newProcess p = inr proc → Process.PID proc = PID p ∧ tagged proc.
Proof.
  unfold newProcess, populateProcessFields.
  destruct (CPUTime p) as [e|cpu]; [done|]. cbn.
  destruct (Comm p) as [e|comm]; [done|].
  destruct (Executable p) as [e|exe]; [done|]. cbn.
  destruct (computeTypeInfoFromProc p) as [e|info] eqn:Hinfo; [done|].
  intros [= <-]. split; [done|]. unfold tagged. cbn.
  apply classification_result_names_the_lookup_used in Hinfo.
  destruct (Type_ info); naive_solver.
Qed.

(** Reading a process again never changes its PID, and leaves the
    classification of a classified process as it is. *)
Lemma populateProcessFields_keeps_class cached p :
  Process.PID (populateProcessFields cached p).1 = Process.PID cached
  ∧ (Process.Type_ cached ≠ UnknownProcess →
     Process.Type_ (populateProcessFields cached p).1 = Process.Type_ cached
     ∧ Process.Container (populateProcessFields cached p).1
       = Process.Container cached
     ∧ Process.VirtualMachine (populateProcessFields cached p).1
       = Process.VirtualMachine cached).
Proof.
  unfold populateProcessFields.
  destruct (CPUTime p) as [e|cpu]; [done|]. cbn.
  destruct (_ && _); [done|].
  destruct (Comm p) as [e|comm]; [done|].
  destruct (Executable p) as [e|exe]; [done|]. cbn.
  destruct (decide (Process.Type_ cached = UnknownProcess)); [|done].
  by destruct (computeTypeInfoFromProc p).
Qed.

Lemma populateProcessFields_tagged cached p :
  tagged cached → tagged (populateProcessFields cached p).1.
Proof.
  intros Htag.
  assert (Process.Type_ cached ≠ UnknownProcess) as Htype.
  { intros Hunknown. unfold tagged in Htag. by rewrite Hunknown in Htag. }
  destruct (populateProcessFields_keeps_class cached p) as [_ Hkeeps].
  destruct (Hkeeps Htype) as (Ht & Hc & Hv).
  unfold tagged in *. by rewrite Ht, Hc, Hv.
Qed.

(** The entry of a PID after [updateProcessCache]. *)
Lemma updateProcessCache_lookup procCache p pid :
  (updateProcessCache procCache p).1 !! pid
  = if decide (PID p = pid)
    then match procCache !! pid with
         | Some cached => Some (populateProcessFields cached p).1
         | None =>
             match newProcess p with
             | inl _ => None
             | inr newProc => Some newProc
             end
         end
    else procCache !! pid.
Proof.
  case_decide as Hpid; [subst pid|by apply updateProcessCache_lookup_ne].
  unfold updateProcessCache.
  destruct (procCache !! PID p) as [cached|] eqn:Hcached.
  - destruct (populateProcessFields cached p) as [cached' err]. cbn.
    apply lookup_insert_eq.
  - destruct (newProcess p) as [err|newProc]; cbn; [done|].
    apply lookup_insert_eq.
Qed.

(** What [updateProcessCache] returns. *)
Lemma updateProcessCache_result procCache p :
  (updateProcessCache procCache p).2
  = match procCache !! PID p with
    | Some cached =>
        match (populateProcessFields cached p).2 with
        | Some err => inl err
        | None => inr (populateProcessFields cached p).1
        end
    | None => newProcess p
    end.
Proof.
  unfold updateProcessCache.
  destruct (procCache !! PID p) as [cached|].
  - by destruct (populateProcessFields cached p) as [cached' [err|]].
  - by destruct (newProcess p).
Qed.

End classification_properties.

(** ** Invariants of the process cache *)
Section process_invariants.
Import resource.
Implicit Types (st : scan) (p q : procInfo) (ri : resourceInformer).

(** A property of the entries of the process cache that reading a process
    again preserves, and that every new process has. *)
Context (P : Z → Process.t → Prop).
Hypothesis populate_preserves :
  ∀ pid cached q, P pid cached → P pid (populateProcessFields cached q).1.
Hypothesis new_has : ∀ q proc, newProcess q = inr proc → P (PID q) proc.

Lemma updateProcessCache_invariant procCache p :
  map_Forall P procCache → map_Forall P (updateProcessCache procCache p).1.
Proof using populate_preserves new_has.
  intros Hall pid proc. rewrite updateProcessCache_lookup.
  case_decide as Hpid; [subst pid|by apply Hall].
  destruct (procCache !! PID p) as [cached|] eqn:Hcached.
  - intros [= <-]. by apply populate_preserves, (Hall (PID p)).
  - destruct (newProcess p) as [err|newProc] eqn:Hnew; [done|].
    intros [= <-]. by apply new_has.
Qed.

Lemma scan_invariant procs st :
  map_Forall P (scan_procCache st) →
  map_Forall P (scan_procCache (fold_left refreshProc procs st)).
Proof using populate_preserves new_has.
  revert st. induction procs as [|p procs IH]; intros st Hall; [done|].
  cbn [fold_left]. apply IH. rewrite refreshProc_procCache.
  by apply updateProcessCache_invariant.
Qed.

Lemma Refresh_invariant ri AllProcs :
  map_Forall P (procCache ri)
  ∧ map_Forall P (Processes.Running (processes ri))
  ∧ map_Forall P (Processes.Terminated (processes ri)) →
  let ri' := (Refresh ri AllProcs).1 in
  map_Forall P (procCache ri')
  ∧ map_Forall P (Processes.Running (processes ri'))
  ∧ map_Forall P (Processes.Terminated (processes ri')).
Proof using populate_preserves new_has.
  intros Hri. destruct AllProcs as [err|procs]; [done|].
  cbn zeta. rewrite Refresh_eq. cbn.
  assert (map_Forall P (scan_procCache (scanProcs ri procs))) as Hscan.
  { apply scan_invariant, Hri. }
  unfold pointees.
  repeat split; intros pid proc [Hin _]%map_lookup_filter_Some;
    by apply Hscan.
Qed.

Lemma run_invariant cycles :
  let ri := run NewInformer cycles in
  map_Forall P (procCache ri)
  ∧ map_Forall P (Processes.Running (processes ri))
  ∧ map_Forall P (Processes.Terminated (processes ri)).
Proof using populate_preserves new_has.
  assert (∀ ri,
            map_Forall P (procCache ri)
            ∧ map_Forall P (Processes.Running (processes ri))
            ∧ map_Forall P (Processes.Terminated (processes ri)) →
            map_Forall P (procCache (run ri cycles))
            ∧ map_Forall P (Processes.Running (processes (run ri cycles)))
            ∧ map_Forall P (Processes.Terminated (processes (run ri cycles))))
    as Hrun.
  { induction cycles as [|AllProcs cycles IH]; intros ri Hri; [done|].
    cbn. by apply IH, Refresh_invariant. }
  apply Hrun. cbn. repeat split; apply map_Forall_empty.
Qed.

End process_invariants.

Section published_processes.
Import resource.
Implicit Types (st : scan) (p q : procInfo) (ri : resourceInformer).

(** Whatever the process table answers over the cycles, every process
    that the informer publishes as running or terminated is stored under
    its own PID. *)
Theorem published_processes_are_keyed_by_their_pid cycles pid proc :
  Processes.Running (processes (run NewInformer cycles)) !! pid = Some proc
  ∨ Processes.Terminated (processes (run NewInformer cycles)) !! pid = Some proc →
  Process.PID proc = pid.
Proof.
  destruct (run_invariant (λ pid proc, Process.PID proc = pid)) with cycles
    as (_ & Hrunning & Hterminated).
  - intros pid' cached q <-. apply populateProcessFields_keeps_class.
  - intros q proc' Hnew. by destruct (newProcess_tagged q proc' Hnew).
  - intros [Hin|Hin]; [by apply Hrunning|by apply Hterminated].
Qed.

(** Whatever the process table answers over the cycles, the type tag of
    every published process agrees with its pointers: a container process
    has a container and no VM, a VM process a VM and no container, a
    regular process neither, and no published process is unclassified. *)
Theorem published_processes_are_tagged cycles pid proc :
  Processes.Running (processes (run NewInformer cycles)) !! pid = Some proc
  ∨ Processes.Terminated (processes (run NewInformer cycles)) !! pid = Some proc →
  tagged proc.
Proof.
  destruct (run_invariant (λ _ proc, tagged proc)) with cycles
    as (_ & Hrunning & Hterminated).
  - intros _ cached q. apply populateProcessFields_tagged.
  - intros q proc' Hnew. by destruct (newProcess_tagged q proc' Hnew).
  - intros [Hin|Hin]; [by eapply Hrunning|by eapply Hterminated].
Qed.

End published_processes.

(** ** One cycle of the informer *)
Section cycle_properties.
Import resource.
Implicit Types (st : scan) (p q : procInfo) (ri : resourceInformer).
Implicit Types (procCache : gmap Z Process.t).

(** The call adds an entry only when it returns a process. *)
Lemma updateProcessCache_dom_eq procCache p :
  dom (updateProcessCache procCache p).1
  = match (updateProcessCache procCache p).2 with
    | inl _ => dom procCache
    | inr _ => {[PID p]} ∪ dom procCache
    end.
Proof.
  unfold updateProcessCache.
  destruct (procCache !! PID p) as [cached|] eqn:Hcached.
  - assert (PID p ∈ dom procCache) as Hin by (apply elem_of_dom; eauto).
    destruct (populateProcessFields cached p) as [cached' [err|]]; cbn;
      rewrite dom_insert_L; set_solver.
  - destruct (newProcess p) as [err|newProc]; cbn; [done|].
    by rewrite dom_insert_L.
Qed.

(** During the loop the caches only grow, by entries that are marked as
    running, and the running sets only grow. *)
Lemma refreshProc_grows st p :
  let st' := refreshProc st p in
  (dom (scan_procCache st) ⊆ dom (scan_procCache st')
   ∧ dom (scan_procCache st') ⊆ dom (scan_procCache st) ∪ procsRunning st'
   ∧ procsRunning st ⊆ procsRunning st'
   ∧ procsRunning st' ⊆ {[PID p]} ∪ procsRunning st)
  ∧ (dom (scan_containerCache st) ⊆ dom (scan_containerCache st')
     ∧ dom (scan_containerCache st')
       ⊆ dom (scan_containerCache st) ∪ containersRunning st'
     ∧ containersRunning st ⊆ containersRunning st')
  ∧ (dom (scan_vmCache st) ⊆ dom (scan_vmCache st')
     ∧ dom (scan_vmCache st') ⊆ dom (scan_vmCache st) ∪ vmsRunning st'
     ∧ vmsRunning st ⊆ vmsRunning st').
Proof.
  cbn zeta. unfold refreshProc.
  pose proof (updateProcessCache_dom_eq (scan_procCache st) p) as Hdom.
  destruct (updateProcessCache (scan_procCache st) p)
    as [procCache' [err|proc]] eqn:Hupd; cbn in Hdom.
  { cbn. rewrite Hdom. set_solver. }
  destruct (Process.Container proc) as [c|] eqn:Hcont;
    [|destruct (Process.VirtualMachine proc) as [vm|] eqn:Hvm]; cbn;
    rewrite Hdom.
  - rewrite (updateContainerCache_dom _ _ c) by done. set_solver.
  - rewrite (updateVMCache_dom _ _ vm) by done. set_solver.
  - set_solver.
Qed.

Lemma scan_grows procs st :
  let st' := fold_left refreshProc procs st in
  (dom (scan_procCache st) ⊆ dom (scan_procCache st')
   ∧ dom (scan_procCache st') ⊆ dom (scan_procCache st) ∪ procsRunning st'
   ∧ procsRunning st ⊆ procsRunning st'
   ∧ procsRunning st' ⊆ list_to_set (PID <$> procs) ∪ procsRunning st)
  ∧ (dom (scan_containerCache st) ⊆ dom (scan_containerCache st')
     ∧ dom (scan_containerCache st')
       ⊆ dom (scan_containerCache st) ∪ containersRunning st'
     ∧ containersRunning st ⊆ containersRunning st')
  ∧ (dom (scan_vmCache st) ⊆ dom (scan_vmCache st')
     ∧ dom (scan_vmCache st') ⊆ dom (scan_vmCache st) ∪ vmsRunning st'
     ∧ vmsRunning st ⊆ vmsRunning st').
Proof.
  cbn zeta. revert st. induction procs as [|p procs IH]; intros st.
  { cbn. set_solver. }
  cbn [fold_left fmap list_fmap list_to_set].
  pose proof (refreshProc_grows st p) as Hstep. cbn zeta in Hstep.
  specialize (IH (refreshProc st p)).
  destruct Hstep as ((? & ? & ? & ?) & (? & ? & ?) & (? & ? & ?)).
  destruct IH as ((? & ? & ? & ?) & (? & ? & ?) & (? & ? & ?)).
  repeat split; set_solver.
Qed.

Lemma scanProcs_grows ri procs :
  let st := scanProcs ri procs in
  (dom (procCache ri) ⊆ dom (scan_procCache st)
   ∧ dom (scan_procCache st) ⊆ dom (procCache ri) ∪ procsRunning st
   ∧ procsRunning st ⊆ list_to_set (PID <$> procs))
  ∧ (dom (containerCache ri) ⊆ dom (scan_containerCache st)
     ∧ dom (scan_containerCache st)
       ⊆ dom (containerCache ri) ∪ containersRunning st)
  ∧ (dom (vmCache ri) ⊆ dom (scan_vmCache st)
     ∧ dom (scan_vmCache st) ⊆ dom (vmCache ri) ∪ vmsRunning st).
Proof.
  pose proof (scan_grows procs
                {| scan_procCache := procCache ri;
                   scan_containerCache := containerCache ri;
                   scan_vmCache := vmCache ri;
                   procsRunning := ∅; containersRunning := ∅; vmsRunning := ∅;
                   refreshErrs := None |}) as Hgrows.
  cbn zeta in *. fold (scanProcs ri procs) in Hgrows. cbn in Hgrows.
  destruct Hgrows as ((? & ? & ? & ?) & (? & ? & ?) & (? & ? & ?)).
  repeat split; set_solver.
Qed.

(** Only PIDs of the process table are marked as running. *)
Lemma scanProcs_running_in_table ri procs pid :
  pid ∈ procsRunning (scanProcs ri procs) → ∃ p, p ∈ procs ∧ PID p = pid.
Proof.
  destruct (scanProcs_grows ri procs) as ((_ & _ & Hpids) & _).
  intros Hin. apply Hpids in Hin.
  apply elem_of_list_to_set, list_elem_of_fmap in Hin as (p & -> & Hp).
  by exists p.
Qed.

(** The keys of the entries that a "find terminated" loop moves to the
    terminated map. *)
Lemma terminated_dom {K V} `{Countable K} (running : gset K) (cache : gmap K V) :
  dom (filter (λ kv, kv.1 ∉ running) cache) = dom cache ∖ running.
Proof.
  apply set_eq. intros id.
  rewrite elem_of_difference, !elem_of_dom. unfold is_Some.
  setoid_rewrite map_lookup_filter_Some. naive_solver.
Qed.

(** The terminated sets that a cycle publishes hold exactly the keys that
    were cached when the cycle began and are not running now; this holds
    for processes, containers and VMs alike, and whether or not the cycle
    returns an error. *)
Theorem terminated_are_the_cached_that_stopped_running ri procs :
  let ri' := (Refresh ri (inr procs)).1 in
  dom (Processes.Terminated (processes ri'))
  = dom (procCache ri) ∖ dom (Processes.Running (processes ri'))
  ∧ dom (Containers.Terminated (containers ri'))
    = dom (containerCache ri) ∖ dom (Containers.Running (containers ri'))
  ∧ dom (VirtualMachines.Terminated (vms ri'))
    = dom (vmCache ri) ∖ dom (VirtualMachines.Running (vms ri')).
Proof.
  cbn zeta. destruct (Refresh_running_keys ri procs) as (-> & -> & ->).
  rewrite Refresh_eq. cbn. rewrite !terminated_dom.
  destruct (scanProcs_grows ri procs) as ((? & ? & ?) & (? & ?) & (? & ?)).
  repeat split; set_solver.
Qed.

(** Only PIDs of the process table are published as running. *)
Theorem running_processes_are_in_the_table ri procs pid :
  pid ∈ dom (Processes.Running (processes (Refresh ri (inr procs)).1)) →
  ∃ p, p ∈ procs ∧ PID p = pid.
Proof.
  destruct (Refresh_running_keys ri procs) as (-> & _ & _).
  apply scanProcs_running_in_table.
Qed.

(** A cached process that the process table no longer lists is published
    as terminated, as the cache held it, and leaves the cache. *)
Theorem process_missing_from_the_table_is_terminated ri procs pid cached :
  procCache ri !! pid = Some cached →
  (∀ q, q ∈ procs → PID q ≠ pid) →
  let ri' := (Refresh ri (inr procs)).1 in
  Processes.Terminated (processes ri') !! pid = Some cached
  ∧ Processes.Running (processes ri') !! pid = None
  ∧ procCache ri' !! pid = None.
Proof.
  intros Hcached Hmissing. cbn zeta.
  assert (pid ∉ procsRunning (scanProcs ri procs)) as Hout.
  { intros (p & Hp & Hpid)%scanProcs_running_in_table. by apply (Hmissing p). }
  rewrite Refresh_eq. cbn. unfold pointees.
  assert (scan_procCache (scanProcs ri procs) !! pid = Some cached) as Hscan.
  { unfold scanProcs. by rewrite scan_other_pids. }
  repeat split.
  - by apply map_lookup_filter_Some.
  - apply map_lookup_filter_None. right. intros proc _. done.
  - apply map_lookup_filter_None. right. intros proc _. done.
Qed.

End cycle_properties.

(** ** What one iteration of the loop does to the state *)
Section update_properties.
Import resource.
Implicit Types (st : scan) (p q : procInfo) (ri : resourceInformer).

Lemma refreshProc_procsRunning st p :
  procsRunning (refreshProc st p)
  = match (updateProcessCache (scan_procCache st) p).2 with
    | inl _ => procsRunning st
    | inr _ => {[PID p]} ∪ procsRunning st
    end.
Proof.
  unfold refreshProc.
  destruct (updateProcessCache (scan_procCache st) p) as [procCache' [err|proc]];
    [done|].
  by destruct (Process.Container proc), (Process.VirtualMachine proc).
Qed.

Lemma refreshProc_refreshErrs st p :
  refreshErrs (refreshProc st p)
  = match (updateProcessCache (scan_procCache st) p).2 with
    | inl err => errors_Join [refreshErrs st; Some err]
    | inr _ => refreshErrs st
    end.
Proof.
  unfold refreshProc.
  destruct (updateProcessCache (scan_procCache st) p) as [procCache' [err|proc]];
    [done|].
  by destruct (Process.Container proc), (Process.VirtualMachine proc).
Qed.

Lemma errors_Join_error old err :
  ∃ new, errors_Join [old; Some err] = Some new ∧ joins err new.
Proof.
  destruct old as [old|]; cbn; eexists; (split; [done|]).
  - eapply joins_member; [|apply joins_here].
    apply list_elem_of_further, list_elem_of_here.
  - eapply joins_member; [|apply joins_here]. apply list_elem_of_here.
Qed.

Lemma refreshProc_containersRunning st p id :
  id ∈ containersRunning (refreshProc st p)
  ↔ id ∈ containersRunning st
    ∨ match (updateProcessCache (scan_procCache st) p).2 with
      | inl _ => False
      | inr proc => inContainer id proc
      end.
Proof.
  unfold refreshProc, inContainer.
  destruct (updateProcessCache (scan_procCache st) p) as [procCache' [err|proc]];
    cbn; [naive_solver|].
  destruct (Process.Container proc) as [c|]; cbn;
    [|destruct (Process.VirtualMachine proc); cbn; naive_solver].
  rewrite elem_of_union, elem_of_singleton. naive_solver.
Qed.

Lemma refreshProc_vmsRunning st p id :
  id ∈ vmsRunning (refreshProc st p)
  ↔ id ∈ vmsRunning st
    ∨ match (updateProcessCache (scan_procCache st) p).2 with
      | inl _ => False
      | inr proc => inVM id proc
      end.
Proof.
  unfold refreshProc, inVM.
  destruct (updateProcessCache (scan_procCache st) p) as [procCache' [err|proc]];
    cbn; [naive_solver|].
  destruct (Process.Container proc) as [c|]; cbn; [naive_solver|].
  destruct (Process.VirtualMachine proc) as [vm|]; cbn; [|naive_solver].
  rewrite elem_of_union, elem_of_singleton. naive_solver.
Qed.

Lemma scan_containersRunning procs st id :
  id ∈ containersRunning (fold_left refreshProc procs st)
  ↔ id ∈ containersRunning st
    ∨ ∃ proc, proc ∈ refreshedProcs (scan_procCache st) procs
              ∧ inContainer id proc.
Proof.
  revert st. induction procs as [|p procs IH]; intros st.
  { cbn. split; [by left|]. intros [?|(proc & Hin & _)]; [done|].
    by apply elem_of_nil in Hin. }
  cbn [fold_left refreshedProcs].
  rewrite IH, refreshProc_containersRunning, refreshProc_procCache.
  destruct (updateProcessCache (scan_procCache st) p) as [procCache' [err|proc]];
    cbn [fst snd]; [naive_solver|].
  setoid_rewrite elem_of_cons. naive_solver.
Qed.

Lemma scan_vmsRunning procs st id :
  id ∈ vmsRunning (fold_left refreshProc procs st)
  ↔ id ∈ vmsRunning st
    ∨ ∃ proc, proc ∈ refreshedProcs (scan_procCache st) procs ∧ inVM id proc.
Proof.
  revert st. induction procs as [|p procs IH]; intros st.
  { cbn. split; [by left|]. intros [?|(proc & Hin & _)]; [done|].
    by apply elem_of_nil in Hin. }
  cbn [fold_left refreshedProcs].
  rewrite IH, refreshProc_vmsRunning, refreshProc_procCache.
  destruct (updateProcessCache (scan_procCache st) p) as [procCache' [err|proc]];
    cbn [fst snd]; [naive_solver|].
  setoid_rewrite elem_of_cons. naive_solver.
Qed.

(** A container or a VM is published as running exactly when one of the
    processes that the cycle read without an error is grouped under it: a
    process whose read failed keeps neither its container nor its VM
    running. *)
Theorem running_groups_have_a_process_read_in_the_cycle ri procs id :
  (id ∈ dom (Containers.Running (containers (Refresh ri (inr procs)).1))
   ↔ ∃ proc, proc ∈ refreshedProcs (procCache ri) procs ∧ inContainer id proc)
  ∧ (id ∈ dom (VirtualMachines.Running (vms (Refresh ri (inr procs)).1))
     ↔ ∃ proc, proc ∈ refreshedProcs (procCache ri) procs ∧ inVM id proc).
Proof.
  destruct (Refresh_running_keys ri procs) as (_ & -> & ->).
  unfold scanProcs. rewrite scan_containersRunning, scan_vmsRunning. cbn.
  set_solver.
Qed.

(** The loop over a table that lists a cached PID once: the entry is what
    [populateProcessFields] leaves, the PID is marked as running exactly
    when the read returned nil, and an error of the read is joined. *)
Lemma scan_cached_once l1 p l2 st cached :
  (∀ q, q ∈ l1 ++ l2 → PID q ≠ PID p) →
  PID p ∉ procsRunning st →
  scan_procCache st !! PID p = Some cached →
  let st' := fold_left refreshProc (l1 ++ p :: l2) st in
  scan_procCache st' !! PID p = Some (populateProcessFields cached p).1
  ∧ (PID p ∈ procsRunning st' ↔ (populateProcessFields cached p).2 = None)
  ∧ (∀ err, (populateProcessFields cached p).2 = Some err →
       ∃ e, refreshErrs st' = Some e ∧ joins err e).
Proof.
  intros Hothers Hout Hcached. cbn zeta.
  rewrite fold_left_app. cbn [fold_left].
  set (st1 := fold_left refreshProc l1 st).
  assert (∀ q, q ∈ l1 → PID q ≠ PID p) as Hl1.
  { intros q Hq. apply Hothers, elem_of_app. by left. }
  assert (∀ q, q ∈ l2 → PID q ≠ PID p) as Hl2.
  { intros q Hq. apply Hothers, elem_of_app. by right. }
  assert (scan_procCache st1 !! PID p = Some cached) as Hst1.
  { unfold st1. by rewrite scan_other_pids. }
  assert (PID p ∉ procsRunning st1) as Hout1.
  { destruct (scan_grows l1 st) as ((_ & _ & _ & Hpids) & _).
    intros Hin. apply Hpids in Hin.
    apply elem_of_union in Hin as [Hin|Hin]; [|done].
    apply elem_of_list_to_set, list_elem_of_fmap in Hin as (q & Heq & Hq).
    by apply (Hl1 q). }
  set (st2 := refreshProc st1 p).
  pose proof (updateProcessCache_result (scan_procCache st1) p) as Hres.
  rewrite Hst1 in Hres.
  assert (scan_procCache st2 !! PID p = Some (populateProcessFields cached p).1)
    as Hst2.
  { unfold st2. rewrite refreshProc_procCache, updateProcessCache_lookup.
    by rewrite decide_True, Hst1 by done. }
  pose proof (refreshProc_procsRunning st1 p) as Hrun2.
  pose proof (refreshProc_refreshErrs st1 p) as Herr2.
  fold st2 in Hrun2, Herr2. rewrite Hres in Hrun2, Herr2.
  destruct (scan_grows l2 st2) as ((_ & _ & Hmono & Hpids) & _).
  cbn zeta in Hmono, Hpids.
  split; [by rewrite scan_other_pids|].
  destruct ((populateProcessFields cached p).2) as [err|].
  - split.
    + split; [|done]. intros Hin. exfalso. apply Hpids in Hin.
      apply elem_of_union in Hin as [Hin|Hin].
      * apply elem_of_list_to_set, list_elem_of_fmap in Hin as (q & Heq & Hq).
        by apply (Hl2 q).
      * by rewrite Hrun2 in Hin.
    + intros err' [= <-].
      destruct (errors_Join_error (refreshErrs st1) err) as (new & Hnew & Hjoins).
      rewrite Hnew in Herr2. by eapply scan_keeps_error.
  - split; [|done]. split; [done|]. intros _.
    apply Hmono. rewrite Hrun2. set_solver.
Qed.

Lemma scanProcs_cached_once ri l1 p l2 cached :
  procCache ri !! PID p = Some cached →
  (∀ q, q ∈ l1 ++ l2 → PID q ≠ PID p) →
  let st' := scanProcs ri (l1 ++ p :: l2) in
  scan_procCache st' !! PID p = Some (populateProcessFields cached p).1
  ∧ (PID p ∈ procsRunning st' ↔ (populateProcessFields cached p).2 = None)
  ∧ (∀ err, (populateProcessFields cached p).2 = Some err →
       ∃ e, refreshErrs st' = Some e ∧ joins err e).
Proof.
  intros Hcached Hothers. unfold scanProcs.
  apply scan_cached_once; [done|cbn; set_solver|done].
Qed.

(** A cached process that the table lists, but whose read fails, is
    published as terminated and leaves the cache, although the table
    lists it; the published entry has the fields as the failed read left
    them, and the error is part of what [Refresh] returns. *)
Theorem failed_read_publishes_a_listed_process_as_terminated
    ri l1 p l2 cached err :
  procCache ri !! PID p = Some cached →
  (∀ q, q ∈ l1 ++ l2 → PID q ≠ PID p) →
  (populateProcessFields cached p).2 = Some err →
  let result := Refresh ri (inr (l1 ++ p :: l2)) in
  Processes.Terminated (processes result.1) !! PID p
  = Some (populateProcessFields cached p).1
  ∧ Processes.Running (processes result.1) !! PID p = None
  ∧ procCache result.1 !! PID p = None
  ∧ ∃ e, result.2 = Some e ∧ joins err e.
Proof.
  intros Hcached Hothers Hfail. cbn zeta. rewrite Refresh_eq. cbn.
  unfold pointees.
  destruct (scanProcs_cached_once ri l1 p l2 cached Hcached Hothers)
    as (Hentry & Hrunning & Herr).
  cbn zeta in Hentry, Hrunning, Herr.
  assert (PID p ∉ procsRunning (scanProcs ri (l1 ++ p :: l2))) as Hout.
  { intros Hin. apply Hrunning in Hin. by rewrite Hfail in Hin. }
  repeat split.
  - by apply map_lookup_filter_Some.
  - apply map_lookup_filter_None. right. by intros proc _.
  - apply map_lookup_filter_None. right. by intros proc _.
  - by apply Herr.
Qed.

(** A cached process that has a command name and used no CPU time since
    the last cycle is refreshed from its CPU time alone: it is published
    as running with the new total and delta and with every other field as
    cached, whatever the reads of the command name, of the executable and
    of the classification would return. *)
Theorem idle_process_is_refreshed_from_its_cpu_time_alone
    ri l1 p l2 cached cpu :
  procCache ri !! PID p = Some cached →
  (∀ q, q ∈ l1 ++ l2 → PID q ≠ PID p) →
  Process.Comm cached ≠ "" →
  CPUTime p = inr cpu →
  (cpu - Process.CPUTotalTime cached <=? 1e-12)%float = true →
  Processes.Running (processes (Refresh ri (inr (l1 ++ p :: l2))).1) !! PID p
  = Some (Process.mk (Process.PID cached) (Process.Comm cached)
            (Process.Exe cached) cpu (cpu - Process.CPUTotalTime cached)
            (Process.Type_ cached) (Process.Container cached)
            (Process.VirtualMachine cached)).
Proof.
  intros Hcached Hothers Hcomm Hcpu Hidle. rewrite Refresh_eq. cbn.
  unfold pointees.
  destruct (scanProcs_cached_once ri l1 p l2 cached Hcached Hothers)
    as (Hentry & Hrunning & _).
  cbn zeta in Hentry, Hrunning.
  assert (populateProcessFields cached p
          = (Process.mk (Process.PID cached) (Process.Comm cached)
               (Process.Exe cached) cpu (cpu - Process.CPUTotalTime cached)
               (Process.Type_ cached) (Process.Container cached)
               (Process.VirtualMachine cached), None)) as Hpop.
  { unfold populateProcessFields. rewrite Hcpu. cbn.
    by rewrite bool_decide_eq_false_2, Hidle by done. }
  rewrite Hpop in Hentry, Hrunning.
  apply map_lookup_filter_Some. split; [done|]. by apply Hrunning.
Qed.

(** The entry of a classified process keeps its classification during
    the loop, however often the table lists its PID. *)
Lemma scan_sticky procs st pid cached :
  scan_procCache st !! pid = Some cached →
  Process.Type_ cached ≠ UnknownProcess →
  ∃ proc,
    scan_procCache (fold_left refreshProc procs st) !! pid = Some proc
    ∧ Process.Type_ proc = Process.Type_ cached
    ∧ Process.Container proc = Process.Container cached
    ∧ Process.VirtualMachine proc = Process.VirtualMachine cached.
Proof.
  revert st cached. induction procs as [|p procs IH]; intros st cached Hin Htype.
  { by exists cached. }
  cbn [fold_left].
  destruct (decide (PID p = pid)) as [Hpid|Hpid].
  - destruct (populateProcessFields_keeps_class cached p) as [_ Hkeeps].
    destruct (Hkeeps Htype) as (Ht & Hc & Hv).
    destruct (IH (refreshProc st p) (populateProcessFields cached p).1)
      as (proc & Hproc & Ht' & Hc' & Hv').
    + rewrite refreshProc_procCache, updateProcessCache_lookup.
      by rewrite decide_True, Hin by done.
    + by rewrite Ht.
    + exists proc. repeat split; [done|congruence..].
  - apply IH; [|done].
    rewrite refreshProc_procCache, updateProcessCache_lookup.
    by rewrite decide_False by done.
Qed.

(** The classification of a cached process is never computed again: the
    process that a cycle publishes under the PID of a classified cached
    process, as running or as terminated, has the type, the container and
    the VM that the cache held, whatever the table now says about that
    PID. *)
Theorem classification_of_a_cached_process_is_kept ri procs pid cached proc :
  procCache ri !! pid = Some cached →
  Process.Type_ cached ≠ UnknownProcess →
  Processes.Running (processes (Refresh ri (inr procs)).1) !! pid = Some proc
  ∨ Processes.Terminated (processes (Refresh ri (inr procs)).1) !! pid
    = Some proc →
  Process.Type_ proc = Process.Type_ cached
  ∧ Process.Container proc = Process.Container cached
  ∧ Process.VirtualMachine proc = Process.VirtualMachine cached.
Proof.
  intros Hcached Htype. rewrite Refresh_eq. cbn. unfold pointees.
  destruct (scan_sticky procs
              {| scan_procCache := procCache ri;
                 scan_containerCache := containerCache ri;
                 scan_vmCache := vmCache ri;
                 procsRunning := ∅; containersRunning := ∅; vmsRunning := ∅;
                 refreshErrs := None |} pid cached Hcached Htype)
    as (proc' & Hproc' & Hkept).
  fold (scanProcs ri procs) in Hproc'.
  intros [[Hin _]%map_lookup_filter_Some|[Hin _]%map_lookup_filter_Some];
    rewrite Hproc' in Hin; by injection Hin as <-.
Qed.

(** The error that the loop has joined so far is nil exactly when it was
    nil at the start and no call of [updateProcessCache] returned an
    error. *)
Lemma scan_refreshErrs_None procs st :
  refreshErrs (fold_left refreshProc procs st) = None
  ↔ refreshErrs st = None
    ∧ ∀ l1 p l2, procs = l1 ++ p :: l2 →
        ¬ returnsError
            (updateProcessCache
               (scan_procCache (fold_left refreshProc l1 st)) p).2.
Proof.
  revert st. induction procs as [|p procs IH]; intros st.
  { cbn. split; [|by intros [? _]]. intros Hnil. split; [done|].
    intros [|? ?] ? ? [=]. }
  cbn [fold_left]. rewrite IH, refreshProc_refreshErrs. split.
  - intros [Hstep Hrest].
    destruct ((updateProcessCache (scan_procCache st) p).2) as [err|proc] eqn:Hupd.
    { destruct (errors_Join_error (refreshErrs st) err) as (new & Hnew & _).
      by rewrite Hnew in Hstep. }
    split; [done|]. intros [|q l1] p' l2 Heq.
    + injection Heq as <- <-. cbn. rewrite Hupd. by intros [? [=]].
    + injection Heq as <- ->. cbn [fold_left]. by eapply Hrest.
  - intros [Hnil Hall].
    pose proof (Hall [] p procs eq_refl) as Hp. cbn in Hp.
    destruct ((updateProcessCache (scan_procCache st) p).2) as [err|proc] eqn:Hupd.
    { exfalso. apply Hp. by exists err. }
    split; [done|]. intros l1 p' l2 ->.
    apply (Hall (p :: l1) p' l2 eq_refl).
Qed.

(** [Refresh] returns nil exactly when every call of [updateProcessCache]
    of its loop returned nil: nothing else contributes to the error, and
    no error of the loop is lost. *)
Theorem Refresh_returns_nil_iff_every_process_was_read ri procs :
  (Refresh ri (inr procs)).2 = None
  ↔ ∀ l1 p l2, procs = l1 ++ p :: l2 →
      ¬ returnsError
          (updateProcessCache (scan_procCache (scanProcs ri l1)) p).2.
Proof.
  rewrite Refresh_eq. cbn. unfold scanProcs.
  rewrite scan_refreshErrs_None. cbn. naive_solver.
Qed.

End update_properties.

(** ** Containers and VMs over the cycles *)
Section group_properties.
Import resource.
Implicit Types (st : scan) (p q : procInfo) (ri : resourceInformer).

Lemma updateContainerCache_keyed containerCache proc reset :
  map_Forall (λ id c, Container.ID c = id) containerCache →
  map_Forall (λ id c, Container.ID c = id)
    (updateContainerCache containerCache proc reset).
Proof.
  intros Hall. unfold updateContainerCache.
  destruct (Process.Container proc) as [c|]; [|done].
  apply map_Forall_insert_2; [|done]. cbn.
  destruct (containerCache !! Container.ID c) as [cached|] eqn:Hcached; [|done].
  by apply (Hall (Container.ID c)).
Qed.

Lemma updateVMCache_keyed vmCache proc reset :
  map_Forall (λ id vm, VirtualMachine.ID vm = id) vmCache →
  map_Forall (λ id vm, VirtualMachine.ID vm = id)
    (updateVMCache vmCache proc reset).
Proof.
  intros Hall. unfold updateVMCache.
  destruct (Process.VirtualMachine proc) as [vm|]; [|done].
  apply map_Forall_insert_2; [|done]. cbn.
  destruct (vmCache !! VirtualMachine.ID vm) as [cached|] eqn:Hcached; [|done].
  by apply (Hall (VirtualMachine.ID vm)).
Qed.

Lemma refreshProc_keyed st p :
  map_Forall (λ id c, Container.ID c = id) (scan_containerCache st)
  ∧ map_Forall (λ id vm, VirtualMachine.ID vm = id) (scan_vmCache st) →
  map_Forall (λ id c, Container.ID c = id)
    (scan_containerCache (refreshProc st p))
  ∧ map_Forall (λ id vm, VirtualMachine.ID vm = id)
      (scan_vmCache (refreshProc st p)).
Proof.
  intros [Hc Hv]. unfold refreshProc.
  destruct (updateProcessCache (scan_procCache st) p) as [procCache' [err|proc]];
    [done|].
  destruct (Process.Container proc) as [c|];
    [|destruct (Process.VirtualMachine proc) as [vm|]]; cbn;
    (split; [by apply updateContainerCache_keyed || done
            |by apply updateVMCache_keyed || done]).
Qed.

Lemma scan_keyed procs st :
  map_Forall (λ id c, Container.ID c = id) (scan_containerCache st)
  ∧ map_Forall (λ id vm, VirtualMachine.ID vm = id) (scan_vmCache st) →
  map_Forall (λ id c, Container.ID c = id)
    (scan_containerCache (fold_left refreshProc procs st))
  ∧ map_Forall (λ id vm, VirtualMachine.ID vm = id)
      (scan_vmCache (fold_left refreshProc procs st)).
Proof.
  revert st. induction procs as [|p procs IH]; intros st Hall; [done|].
  cbn [fold_left]. by apply IH, refreshProc_keyed.
Qed.

Lemma run_keyed cycles ri :
  (map_Forall (λ id c, Container.ID c = id) (containerCache ri)
   ∧ map_Forall (λ id c, Container.ID c = id) (Containers.Running (containers ri))
   ∧ map_Forall (λ id c, Container.ID c = id)
       (Containers.Terminated (containers ri)))
  ∧ (map_Forall (λ id vm, VirtualMachine.ID vm = id) (vmCache ri)
     ∧ map_Forall (λ id vm, VirtualMachine.ID vm = id)
         (VirtualMachines.Running (vms ri))
     ∧ map_Forall (λ id vm, VirtualMachine.ID vm = id)
         (VirtualMachines.Terminated (vms ri))) →
  (map_Forall (λ id c, Container.ID c = id) (containerCache (run ri cycles))
   ∧ map_Forall (λ id c, Container.ID c = id)
       (Containers.Running (containers (run ri cycles)))
   ∧ map_Forall (λ id c, Container.ID c = id)
       (Containers.Terminated (containers (run ri cycles))))
  ∧ (map_Forall (λ id vm, VirtualMachine.ID vm = id) (vmCache (run ri cycles))
     ∧ map_Forall (λ id vm, VirtualMachine.ID vm = id)
         (VirtualMachines.Running (vms (run ri cycles)))
     ∧ map_Forall (λ id vm, VirtualMachine.ID vm = id)
         (VirtualMachines.Terminated (vms (run ri cycles)))).
Proof.
  revert ri. induction cycles as [|AllProcs cycles IH]; intros ri Hri; [done|].
  cbn. apply IH. destruct AllProcs as [err|procs]; [done|].
  rewrite Refresh_eq. cbn.
  destruct (scan_keyed procs
              {| scan_procCache := procCache ri;
                 scan_containerCache := containerCache ri;
                 scan_vmCache := vmCache ri;
                 procsRunning := ∅; containersRunning := ∅; vmsRunning := ∅;
                 refreshErrs := None |}) as [Hc Hv].
  { cbn. split; apply Hri. }
  fold (scanProcs ri procs) in Hc, Hv. unfold pointees.
  repeat split; intros id obj [Hin _]%map_lookup_filter_Some;
    (by apply Hc) || (by apply Hv).
Qed.

(** Whatever the process table answers over the cycles, every container
    and every VM that the informer publishes, as running or as
    terminated, is stored under its own ID. *)
Theorem published_groups_are_keyed_by_their_id cycles id :
  (∀ c,
     Containers.Running (containers (run NewInformer cycles)) !! id = Some c
     ∨ Containers.Terminated (containers (run NewInformer cycles)) !! id = Some c →
     Container.ID c = id)
  ∧ (∀ vm,
       VirtualMachines.Running (vms (run NewInformer cycles)) !! id = Some vm
       ∨ VirtualMachines.Terminated (vms (run NewInformer cycles)) !! id
         = Some vm →
       VirtualMachine.ID vm = id).
Proof.
  destruct (run_keyed cycles NewInformer)
    as ((_ & Hcr & Hct) & (_ & Hvr & Hvt)).
  { cbn. repeat split; apply map_Forall_empty. }
  split.
  - intros c [Hin|Hin]; [by apply Hcr|by apply Hct].
  - intros vm [Hin|Hin]; [by apply Hvr|by apply Hvt].
Qed.

(** One iteration leaves the name and the runtime of a cached container
    as they are, and adds the delta of the process to its total CPU time
    when the process is grouped under it. *)
Lemma refreshProc_container_total st p id c0 :
  scan_containerCache st !! id = Some c0 →
  ∃ c,
    scan_containerCache (refreshProc st p) !! id = Some c
    ∧ Container.ID c = Container.ID c0
    ∧ Container.Name c = Container.Name c0
    ∧ Container.Runtime c = Container.Runtime c0
    ∧ Container.CPUTotalTime c
      = match (updateProcessCache (scan_procCache st) p).2 with
        | inl _ => Container.CPUTotalTime c0
        | inr proc =>
            if decide (inContainer id proc)
            then (Container.CPUTotalTime c0 + Process.CPUTimeDelta proc)%float
            else Container.CPUTotalTime c0
        end.
Proof.
  intros Hc0. unfold refreshProc.
  destruct (updateProcessCache (scan_procCache st) p) as [procCache' [err|proc]];
    cbn [snd]; [by exists c0|].
  destruct (decide (inContainer id proc)) as [Hin|Hout]; unfold inContainer in *.
  - destruct (Process.Container proc) as [c|] eqn:Hcont; [|done].
    injection Hin as <-. cbn. unfold updateContainerCache.
    rewrite Hcont, Hc0, lookup_insert_eq. by eexists.
  - destruct (Process.Container proc) as [c|] eqn:Hcont.
    + assert (Container.ID c ≠ id) by (intros <-; by apply Hout).
      cbn. unfold updateContainerCache. rewrite Hcont.
      rewrite lookup_insert_ne by done. by exists c0.
    + destruct (Process.VirtualMachine proc); by exists c0.
Qed.

Lemma scan_container_total procs st id c0 :
  scan_containerCache st !! id = Some c0 →
  ∃ c,
    scan_containerCache (fold_left refreshProc procs st) !! id = Some c
    ∧ Container.ID c = Container.ID c0
    ∧ Container.Name c = Container.Name c0
    ∧ Container.Runtime c = Container.Runtime c0
    ∧ Container.CPUTotalTime c
      = fold_left PrimFloat.add
          (Process.CPUTimeDelta
             <$> filter (inContainer id)
                   (refreshedProcs (scan_procCache st) procs))
          (Container.CPUTotalTime c0).
Proof.
  revert st c0. induction procs as [|p procs IH]; intros st c0 Hc0.
  { by exists c0. }
  cbn [fold_left refreshedProcs].
  destruct (refreshProc_container_total st p id c0 Hc0)
    as (c1 & Hc1 & Hid1 & Hname1 & Hrt1 & Htotal1).
  destruct (IH _ _ Hc1) as (c & Hc & Hid & Hname & Hrt & Htotal).
  exists c. rewrite Hid, Hname, Hrt, Htotal.
  repeat split; [done..|].
  rewrite refreshProc_procCache, Htotal1.
  destruct (updateProcessCache (scan_procCache st) p) as [procCache' [err|proc]];
    cbn [fst snd]; [done|].
  destruct (decide (inContainer id proc)).
  - by rewrite filter_cons_True.
  - by rewrite filter_cons_False.
Qed.

Lemma refreshProc_vm_total st p id vm0 :
  scan_vmCache st !! id = Some vm0 →
  ∃ vm,
    scan_vmCache (refreshProc st p) !! id = Some vm
    ∧ VirtualMachine.ID vm = VirtualMachine.ID vm0
    ∧ VirtualMachine.Name vm = VirtualMachine.Name vm0
    ∧ VirtualMachine.Hypervisor vm = VirtualMachine.Hypervisor vm0
    ∧ VirtualMachine.CPUTotalTime vm
      = match (updateProcessCache (scan_procCache st) p).2 with
        | inl _ => VirtualMachine.CPUTotalTime vm0
        | inr proc =>
            if decide (inVM id proc)
            then (VirtualMachine.CPUTotalTime vm0 + Process.CPUTimeDelta proc)%float
            else VirtualMachine.CPUTotalTime vm0
        end.
Proof.
  intros Hvm0. unfold refreshProc.
  destruct (updateProcessCache (scan_procCache st) p) as [procCache' [err|proc]];
    cbn [snd]; [by exists vm0|].
  destruct (decide (inVM id proc)) as [Hin|Hout]; unfold inVM in *.
  - destruct Hin as [Hcont Hin]. rewrite Hcont.
    destruct (Process.VirtualMachine proc) as [vm|] eqn:Hvm; [|done].
    injection Hin as <-. cbn. unfold updateVMCache.
    rewrite Hvm, Hvm0, lookup_insert_eq. by eexists.
  - destruct (Process.Container proc) as [c|] eqn:Hcont; [by exists vm0|].
    destruct (Process.VirtualMachine proc) as [vm|] eqn:Hvm; [|by exists vm0].
    assert (VirtualMachine.ID vm ≠ id) by (intros <-; by apply Hout).
    cbn. unfold updateVMCache. rewrite Hvm.
    rewrite lookup_insert_ne by done. by exists vm0.
Qed.

Lemma scan_vm_total procs st id vm0 :
  scan_vmCache st !! id = Some vm0 →
  ∃ vm,
    scan_vmCache (fold_left refreshProc procs st) !! id = Some vm
    ∧ VirtualMachine.ID vm = VirtualMachine.ID vm0
    ∧ VirtualMachine.Name vm = VirtualMachine.Name vm0
    ∧ VirtualMachine.Hypervisor vm = VirtualMachine.Hypervisor vm0
    ∧ VirtualMachine.CPUTotalTime vm
      = fold_left PrimFloat.add
          (Process.CPUTimeDelta
             <$> filter (inVM id) (refreshedProcs (scan_procCache st) procs))
          (VirtualMachine.CPUTotalTime vm0).
Proof.
  revert st vm0. induction procs as [|p procs IH]; intros st vm0 Hvm0.
  { by exists vm0. }
  cbn [fold_left refreshedProcs].
  destruct (refreshProc_vm_total st p id vm0 Hvm0)
    as (vm1 & Hvm1 & Hid1 & Hname1 & Hhv1 & Htotal1).
  destruct (IH _ _ Hvm1) as (vm & Hvm & Hid & Hname & Hhv & Htotal).
  exists vm. rewrite Hid, Hname, Hhv, Htotal.
  repeat split; [done..|].
  rewrite refreshProc_procCache, Htotal1.
  destruct (updateProcessCache (scan_procCache st) p) as [procCache' [err|proc]];
    cbn [fst snd]; [done|].
  destruct (decide (inVM id proc)).
  - by rewrite filter_cons_True.
  - by rewrite filter_cons_False.
Qed.

(** A container that was cached when the cycle began and is published by
    it, as running or as terminated, keeps its ID, name and runtime, and
    its total CPU time is the cached total with the deltas of its
    processes added one after the other, in the order of the table.  The
    container that a process carries is not looked at again. *)
Theorem cached_container_accumulates_its_total ri procs id c0 c :
  containerCache ri !! id = Some c0 →
  Containers.Running (containers (Refresh ri (inr procs)).1) !! id = Some c
  ∨ Containers.Terminated (containers (Refresh ri (inr procs)).1) !! id
    = Some c →
  Container.ID c = Container.ID c0
  ∧ Container.Name c = Container.Name c0
  ∧ Container.Runtime c = Container.Runtime c0
  ∧ Container.CPUTotalTime c
    = fold_left PrimFloat.add
        (Process.CPUTimeDelta
           <$> filter (inContainer id) (refreshedProcs (procCache ri) procs))
        (Container.CPUTotalTime c0).
Proof.
  intros Hc0. rewrite Refresh_eq. cbn. unfold pointees.
  destruct (scan_container_total procs
              {| scan_procCache := procCache ri;
                 scan_containerCache := containerCache ri;
                 scan_vmCache := vmCache ri;
                 procsRunning := ∅; containersRunning := ∅; vmsRunning := ∅;
                 refreshErrs := None |} id c0 Hc0) as (c' & Hc' & Hkept).
  fold (scanProcs ri procs) in Hc'. cbn in Hkept.
  intros [[Hin _]%map_lookup_filter_Some|[Hin _]%map_lookup_filter_Some];
    rewrite Hc' in Hin; by injection Hin as <-.
Qed.

(** The same for a VM: ID, name and hypervisor are kept, and the total
    CPU time grows by the deltas of the processes of the VM. *)
Theorem cached_vm_accumulates_its_total ri procs id vm0 vm :
  vmCache ri !! id = Some vm0 →
  VirtualMachines.Running (vms (Refresh ri (inr procs)).1) !! id = Some vm
  ∨ VirtualMachines.Terminated (vms (Refresh ri (inr procs)).1) !! id
    = Some vm →
  VirtualMachine.ID vm = VirtualMachine.ID vm0
  ∧ VirtualMachine.Name vm = VirtualMachine.Name vm0
  ∧ VirtualMachine.Hypervisor vm = VirtualMachine.Hypervisor vm0
  ∧ VirtualMachine.CPUTotalTime vm
    = fold_left PrimFloat.add
        (Process.CPUTimeDelta
           <$> filter (inVM id) (refreshedProcs (procCache ri) procs))
        (VirtualMachine.CPUTotalTime vm0).
Proof.
  intros Hvm0. rewrite Refresh_eq. cbn. unfold pointees.
  destruct (scan_vm_total procs
              {| scan_procCache := procCache ri;
                 scan_containerCache := containerCache ri;
                 scan_vmCache := vmCache ri;
                 procsRunning := ∅; containersRunning := ∅; vmsRunning := ∅;
                 refreshErrs := None |} id vm0 Hvm0) as (vm' & Hvm' & Hkept).
  fold (scanProcs ri procs) in Hvm'. cbn in Hkept.
  intros [[Hin _]%map_lookup_filter_Some|[Hin _]%map_lookup_filter_Some];
    rewrite Hvm' in Hin; by injection Hin as <-.
Qed.

(** An iteration for a process of another container, of a VM or of no
    group, or whose read failed, leaves the entry of the container alone. *)
Lemma refreshProc_container_untouched st p id :
  match (updateProcessCache (scan_procCache st) p).2 with
  | inl _ => True
  | inr proc => ¬ inContainer id proc
  end →
  scan_containerCache (refreshProc st p) !! id = scan_containerCache st !! id.
Proof.
  unfold refreshProc, inContainer.
  destruct (updateProcessCache (scan_procCache st) p) as [procCache' [err|proc]];
    cbn [snd]; [done|].
  intros Hout.
  destruct (Process.Container proc) as [c|] eqn:Hcont.
  - assert (Container.ID c ≠ id) by (intros <-; by apply Hout).
    cbn. unfold updateContainerCache. rewrite Hcont.
    by rewrite lookup_insert_ne.
  - by destruct (Process.VirtualMachine proc).
Qed.

Lemma scan_container_untouched procs st id :
  (∀ proc, proc ∈ refreshedProcs (scan_procCache st) procs →
     ¬ inContainer id proc) →
  scan_containerCache (fold_left refreshProc procs st) !! id
  = scan_containerCache st !! id.
Proof.
  revert st. induction procs as [|p procs IH]; intros st Hnone; [done|].
  cbn [fold_left]. cbn [refreshedProcs] in Hnone.
  pose proof (refreshProc_procCache st p) as Hcache.
  pose proof (refreshProc_container_untouched st p id) as Hstep.
  destruct (updateProcessCache (scan_procCache st) p) as [procCache' [err|proc]];
    cbn [fst snd] in *.
  - rewrite IH, Hstep; [done..|]. by rewrite Hcache.
  - rewrite IH, Hstep; [done| |].
    + apply Hnone, list_elem_of_here.
    + rewrite Hcache. intros proc' Hin. by apply Hnone, list_elem_of_further.
Qed.

(** A container leaves the cache, and is published as terminated as the
    cache held it, when no process that the cycle read is grouped under
    it: also when its processes are still listed but could not be read. *)
Theorem container_without_a_read_process_is_terminated ri procs id c0 :
  containerCache ri !! id = Some c0 →
  (∀ proc, proc ∈ refreshedProcs (procCache ri) procs → ¬ inContainer id proc) →
  let ri' := (Refresh ri (inr procs)).1 in
  Containers.Terminated (containers ri') !! id = Some c0
  ∧ Containers.Running (containers ri') !! id = None
  ∧ containerCache ri' !! id = None.
Proof.
  intros Hc0 Hnone. cbn zeta.
  assert (id ∉ containersRunning (scanProcs ri procs)) as Hout.
  { unfold scanProcs. rewrite scan_containersRunning. cbn.
    intros [Hin|(proc & Hin & Hmember)]; [set_solver|].
    by apply (Hnone proc). }
  assert (scan_containerCache (scanProcs ri procs) !! id = Some c0) as Hscan.
  { unfold scanProcs. by rewrite scan_container_untouched. }
  rewrite Refresh_eq. cbn. unfold pointees.
  repeat split.
  - by apply map_lookup_filter_Some.
  - apply map_lookup_filter_None. right. by intros obj _.
  - apply map_lookup_filter_None. right. by intros obj _.
Qed.

End group_properties.

(** * Further properties of the power monitor *)
Section snapshot_properties.
Import monitor.
Context `{Units}.

(** A map built entry by entry has the keys of the map it is built
    from. *)
Lemma dom_imap_Some {A B} (f : string → A → B) (m : gmap string A) :
  dom (map_imap (λ k v, Some (f k v)) m) = dom m.
Proof.
  apply set_eq. intros k. rewrite !elem_of_dom, map_lookup_imap.
  destruct (m !! k); cbn; [|done]. split; by eexists.
Qed.

(** The zones that the loop of [firstVMRead] has written. *)
Lemma zero_zones_lookup (usage : Usage.t) (zones : list Zone)
    (Zones : gmap Zone Usage.t) (zone : Zone) :
  fold_left (λ Zones zone, <[zone := usage]> Zones) zones Zones !! zone
  = if decide (zone ∈ zones) then Some usage else Zones !! zone.
Proof.
  revert Zones. induction zones as [|z zones IH]; intros Zones.
  { cbn. by rewrite decide_False by apply not_elem_of_nil. }
  cbn [fold_left]. rewrite IH.
  destruct (decide (zone ∈ zones)) as [Hin|Hout].
  - by rewrite decide_True by (by apply list_elem_of_further).
  - destruct (decide (zone = z)) as [->|Hne].
    + rewrite lookup_insert_eq. by rewrite decide_True by apply list_elem_of_here.
    + rewrite lookup_insert_ne by done.
      rewrite decide_False; [done|]. by intros [?|?]%elem_of_cons.
Qed.

Lemma firstVMRead_zoneUsageOf zones vms snapshot id zone :
  zoneUsageOf (firstVMRead (inr zones) vms snapshot).1 id zone
  = if decide (id ∈ dom (resource.VirtualMachines.Running vms) ∧ zone ∈ zones)
    then Some (Usage.mk (Power_of_float64 0) (Energy_of_float64 0)
                 (Energy_of_float64 0))
    else None.
Proof.
  unfold zoneUsageOf. cbn. rewrite map_lookup_imap.
  destruct (resource.VirtualMachines.Running vms !! id) as [vm|] eqn:Hvm; cbn.
  - rewrite zero_zones_lookup, lookup_empty.
    assert (id ∈ dom (resource.VirtualMachines.Running vms)) as Hin
        by (apply elem_of_dom; eauto).
    destruct (decide (zone ∈ zones)).
    + by rewrite decide_True.
    + rewrite decide_False; [done|]. by intros [_ ?].
  - rewrite decide_False; [done|].
    intros [[vm Hin]%elem_of_dom _]. by rewrite Hvm in Hin.
Qed.

(** When the zones can be read, [firstVMRead] returns nil, leaves the
    node of the snapshot alone and replaces the VMs of the snapshot: the
    new ones are the running VMs, each under its key and with the name,
    hypervisor and total CPU time of the running VM, and each with a zero
    usage for exactly the zones of the list. *)
Theorem first_read_gives_every_running_vm_zero_usage
    zones vms snapshot :
  let result := firstVMRead (inr zones) vms snapshot in
  result.2 = None
  ∧ Node result.1 = Node snapshot
  ∧ dom (VirtualMachines result.1) = dom (resource.VirtualMachines.Running vms)
  ∧ (∀ id,
       (λ vm, (VirtualMachine.ID vm, VirtualMachine.Name vm,
               VirtualMachine.Hypervisor vm, VirtualMachine.CPUTotalTime vm))
         <$> VirtualMachines result.1 !! id
       = (λ vm, (id, resource.VirtualMachine.Name vm,
                 resource.VirtualMachine.Hypervisor vm,
                 resource.VirtualMachine.CPUTotalTime vm))
           <$> resource.VirtualMachines.Running vms !! id)
  ∧ (∀ id zone,
       zoneUsageOf result.1 id zone
       = if decide (id ∈ dom (resource.VirtualMachines.Running vms)
                    ∧ zone ∈ zones)
         then Some (Usage.mk (Power_of_float64 0) (Energy_of_float64 0)
                      (Energy_of_float64 0))
         else None).
Proof.
  cbn. repeat split.
  - apply dom_imap_Some.
  - intros id. rewrite map_lookup_imap.
    by destruct (resource.VirtualMachines.Running vms !! id).
  - intros id zone. apply firstVMRead_zoneUsageOf.
Qed.

(** With at least one running VM, [calculateVMPower] leaves the node of
    the snapshot alone and replaces its VMs: the new ones are the running
    VMs, each under its key, and each with a usage for exactly the zones
    of the node.  A VM of the previous snapshot that no longer runs is
    not carried over. *)
Theorem attribution_covers_the_running_vms_and_the_node_zones
    vms prev newSnapshot :
  resource.VirtualMachines.Running vms ≠ ∅ →
  let s := calculateVMPower vms prev newSnapshot in
  Node s = Node newSnapshot
  ∧ dom (VirtualMachines s) = dom (resource.VirtualMachines.Running vms)
  ∧ (∀ id vm,
       VirtualMachines s !! id = Some vm →
       VirtualMachine.ID vm = id
       ∧ dom (VirtualMachine.Zones vm) = dom (Node.Zones (Node newSnapshot))
       ∧ ∃ c, resource.VirtualMachines.Running vms !! id = Some c
              ∧ VirtualMachine.Name vm = resource.VirtualMachine.Name c
              ∧ VirtualMachine.Hypervisor vm = resource.VirtualMachine.Hypervisor c
              ∧ VirtualMachine.CPUTotalTime vm
                = resource.VirtualMachine.CPUTotalTime c).
Proof.
  intros Hrunning. cbn zeta. unfold calculateVMPower.
  rewrite decide_False by (by rewrite map_size_empty_iff). cbn.
  split; [done|]. split.
  { apply dom_imap_Some. }
  intros id vm. rewrite map_lookup_imap.
  destruct (resource.VirtualMachines.Running vms !! id) as [c|]; cbn; [|done].
  intros [= <-]. cbn. repeat split.
  - apply dom_imap_Some.
  - by exists c.
Qed.

(** Outside the zero guard the absolute energy of a VM in a zone is the
    absolute energy of the previous snapshot plus the delta of the cycle;
    it is the delta alone when the previous snapshot has no usage for the
    VM in that zone. *)
Theorem absolute_energy_accumulates_outside_the_zero_guard
    vms prev newSnapshot id c zone nodeZoneUsage :
  resource.VirtualMachines.Running vms !! id = Some c →
  Node.Zones (Node newSnapshot) !! zone = Some nodeZoneUsage →
  zeroGuard nodeZoneUsage (resource.VirtualMachines.NodeCPUTimeDelta vms) = false →
  ∃ usage,
    zoneUsageOf (calculateVMPower vms prev newSnapshot) id zone = Some usage
    ∧ Usage.Absolute usage
      = match zoneUsageOf prev id zone with
        | Some prevUsage =>
            energy_add (Usage.Absolute prevUsage) (Usage.Delta usage)
        | None => Usage.Delta usage
        end.
Proof.
  intros Hc Hzone Hguard. eexists. split.
  { by apply calculateVMPower_zoneUsageOf. }
  destruct (zoneUsageOf prev id zone) as [prevUsage|] eqn:Hprev.
  - by apply vmZoneUsage_accumulates.
  - by apply vmZoneUsage_cold_start.
Qed.

(** The first attribution after [firstVMRead]: outside the zero guard, a
    VM that was running at the first read, in a zone of the list, starts
    its absolute energy from the zero of the first read plus the delta; a
    VM or a zone that the first read did not see starts with the delta. *)
Theorem attribution_after_the_first_read_starts_from_zero
    zones vms0 snapshot0 vms newSnapshot id c zone nodeZoneUsage :
  resource.VirtualMachines.Running vms !! id = Some c →
  Node.Zones (Node newSnapshot) !! zone = Some nodeZoneUsage →
  zeroGuard nodeZoneUsage (resource.VirtualMachines.NodeCPUTimeDelta vms) = false →
  ∃ usage,
    zoneUsageOf
      (calculateVMPower vms (firstVMRead (inr zones) vms0 snapshot0).1
         newSnapshot) id zone = Some usage
    ∧ Usage.Absolute usage
      = if decide (id ∈ dom (resource.VirtualMachines.Running vms0)
                   ∧ zone ∈ zones)
        then energy_add (Energy_of_float64 0) (Usage.Delta usage)
        else Usage.Delta usage.
Proof.
  intros Hc Hzone Hguard. eexists. split.
  { by apply calculateVMPower_zoneUsageOf. }
  pose proof (firstVMRead_zoneUsageOf zones vms0 snapshot0 id zone) as Hfirst.
  case_decide.
  - by rewrite (vmZoneUsage_accumulates _ _ _ _ _ _ _ Hguard Hfirst).
  - by apply vmZoneUsage_cold_start.
Qed.

End snapshot_properties.

(** * Further properties of the collector's cleanup *)
Section cleanup_properties.
Import collector.
Context (SystemProcessName KernelProcessName : string).
Context {ContainerStats_t VMStats_t : Type}.
Context (IsExposeContainerStatsEnabled IsExposeVMStatsEnabled : bool).
Context (processExists : Z → bool).
Implicit Types (c : @Collector ContainerStats_t VMStats_t).
Implicit Types (found alive : gset string) (query : error + gset string).
Implicit Types (stats : gmap string ContainerStats_t).
Implicit Types (process : ProcessStats.t).

Local Notation handle :=
  (handleInactiveContainers SystemProcessName KernelProcessName).
Local Notation visit :=
  (visitProcess IsExposeContainerStatsEnabled IsExposeVMStatsEnabled
     processExists).
Local Notation cleanup :=
  (cleanupStaleResources SystemProcessName KernelProcessName
     IsExposeContainerStatsEnabled IsExposeVMStatsEnabled processExists).
Local Notation kept := (survives processExists).

Lemma evictVM_lookup found (VMStats : gmap string VMStats_t) vmID id :
  evictVM found VMStats vmID !! id
  = if decide (id = vmID ∧ id ∉ found) then None else VMStats !! id.
Proof.
  unfold evictVM. destruct (decide (vmID ∈ found)) as [Hin|Hout].
  { case_decide as Hc; [|done]. by destruct Hc as [-> ?]. }
  destruct (decide (id = vmID)) as [->|Hne].
  - rewrite lookup_delete_eq. by rewrite decide_True.
  - rewrite lookup_delete_ne by done.
    rewrite decide_False; [done|]. by intros [? _].
Qed.

Lemma evictVM_loop_lookup found (ids : list string)
    (VMStats : gmap string VMStats_t) id :
  fold_left (evictVM found) ids VMStats !! id
  = if decide (id ∈ ids ∧ id ∉ found) then None else VMStats !! id.
Proof.
  revert VMStats. induction ids as [|vmID ids IH]; intros VMStats; cbn.
  { rewrite decide_False; [done|]. intros [Hin _]. by apply elem_of_nil in Hin. }
  rewrite IH, evictVM_lookup.
  repeat case_decide; try done; exfalso; set_solver.
Qed.

Lemma handleInactiveVM_lookup (VMStats : gmap string VMStats_t) found id :
  handleInactiveVM VMStats found !! id
  = if decide ((Z.of_nat (size VMStats) - Z.of_nat (size found) > maxInactiveVM)%Z
               ∧ id ∉ found)
    then None else VMStats !! id.
Proof.
  unfold handleInactiveVM.
  destruct (Z.leb_spec (Z.of_nat (size VMStats) - Z.of_nat (size found))
              maxInactiveVM) as [Hle|Hgt].
  { rewrite decide_False; [done|]. intros [? _]. lia. }
  rewrite evictVM_loop_lookup.
  destruct (VMStats !! id) as [v|] eqn:Hid; [|by repeat case_decide].
  assert (id ∈ (map_to_list VMStats).*1) as Hin.
  { apply list_elem_of_fmap. exists (id, v). split; [done|].
    by apply elem_of_map_to_list. }
  destruct (decide (id ∈ found)).
  - rewrite !decide_False; [done|by intros [_ ?]|by intros [_ ?]].
  - rewrite !decide_True; [done|split; [lia|done]|done].
Qed.

(** [handleInactiveVM] deletes a VM exactly when more VMs than the
    threshold of 3 lack a marker and the VM is one of them; below the
    threshold a VM without a marker is kept. *)
Theorem vms_without_a_marker_are_evicted_above_the_threshold
    (VMStats : gmap string VMStats_t) found id :
  handleInactiveVM VMStats found !! id
  = if decide ((Z.of_nat (size VMStats) - Z.of_nat (size found) > 3)%Z
               ∧ id ∉ found)
    then None else VMStats !! id.
Proof. apply handleInactiveVM_lookup. Qed.

(** What [handleInactiveContainers] leaves under an ID, in all cases. *)
Lemma handleInactiveContainers_lookup stats found query id :
  (handle stats found query).1 !! id
  = match query with
    | inr alive =>
        if decide ((Z.of_nat (size stats) - Z.of_nat (size found)
                    > maxInactiveContainers)%Z
                   ∧ id ≠ SystemProcessName ∧ id ≠ KernelProcessName
                   ∧ id ∉ alive)
        then None else stats !! id
    | inl _ => stats !! id
    end.
Proof.
  destruct (decide (Z.of_nat (size stats) - Z.of_nat (size found)
                    > maxInactiveContainers)%Z) as [Hgt|Hle].
  - destruct query as [err|alive].
    + unfold handleInactiveContainers.
      destruct (Z.leb_spec (Z.of_nat (size stats) - Z.of_nat (size found))
                  maxInactiveContainers); [lia|done].
    + rewrite handleInactiveContainers_evicts by done.
      repeat case_decide; try done; exfalso; naive_solver.
  - unfold handleInactiveContainers.
    destruct (Z.leb_spec (Z.of_nat (size stats) - Z.of_nat (size found))
                maxInactiveContainers); [|lia].
    destruct query as [err|alive]; [done|].
    rewrite decide_False; [done|]. by intros [? _].
Qed.

(** Running [handleInactiveContainers] again with the same markers and
    the same answer of the alive query changes nothing more: whatever the
    second pass decides about the threshold, the first pass has already
    removed everything it would remove. *)
Theorem eviction_pass_is_idempotent stats found query :
  let stats' :=
    (handleInactiveContainers SystemProcessName KernelProcessName
       stats found query).1 in
  (handleInactiveContainers SystemProcessName KernelProcessName
     stats' found query).1 = stats'.
Proof.
  cbn zeta. apply map_eq. intros id.
  rewrite (handleInactiveContainers_lookup (handle stats found query).1).
  destruct query as [err|alive]; [done|].
  case_decide as Hagain; [|done].
  destruct Hagain as (Hsize & Hs & Hk & Ha).
  rewrite handleInactiveContainers_lookup.
  case_decide as Hfirst; [done|].
  exfalso. apply Hfirst. repeat split; [|done..].
  revert Hsize. unfold handleInactiveContainers.
  destruct (Z.leb_spec (Z.of_nat (size stats) - Z.of_nat (size found))
              maxInactiveContainers) as [Hle|Hgt]; [|lia].
  cbn. lia.
Qed.

(** The process stats after the loop of the cleanup. *)
Lemma visitProcess_stats c (l : list (Z * ProcessStats.t)) acc pid :
  NoDup l.*1 →
  (fold_left (visit c) l acc).1.1 !! pid
  = match (list_to_map l : gmap Z ProcessStats.t) !! pid with
    | Some process =>
        if kept process
        then Some (ProcessStats.mk (ProcessStats.PID process) 0
                     (ProcessStats.ContainerID process)
                     (ProcessStats.VMID process))
        else None
    | None => acc.1.1 !! pid
    end.
Proof.
  revert acc.
  induction l as [|[pid' process] l IH]; intros [[stats' cs] vs] Hnd; [done|].
  apply NoDup_cons in Hnd as [Hfresh Hnd].
  cbn [fold_left]. rewrite IH by done. cbn [list_to_map foldr uncurry].
  destruct (decide (pid = pid')) as [->|Hne].
  - rewrite lookup_insert_eq.
    rewrite (not_elem_of_list_to_map_1 l pid') by done.
    unfold visitProcess, survives. cbn.
    destruct (_ || _); cbn; [by rewrite lookup_insert_eq|].
    by rewrite lookup_delete_eq.
  - rewrite (lookup_insert_ne _ pid' pid) by done.
    destruct (list_to_map l !! pid); [done|].
    unfold visitProcess. cbn.
    destruct (_ || _); cbn; [by rewrite lookup_insert_ne|].
    by rewrite lookup_delete_ne.
Qed.

(** The VM markers after the loop of the cleanup. *)
Lemma visitProcess_vmsFound c (l : list (Z * ProcessStats.t)) acc id :
  id ∈ (fold_left (visit c) l acc).2
  ↔ id ∈ acc.2
    ∨ (IsExposeVMStatsEnabled = true ∧ id ≠ "" ∧ is_Some (VMStats c !! id)
       ∧ ∃ entry, entry ∈ l ∧ kept entry.2 = true
                  ∧ ProcessStats.VMID entry.2 = id).
Proof.
  revert acc. induction l as [|[pid process] l IH]; intros [[stats' cs] vs].
  { cbn. split; [by left|]. intros [?|(_ & _ & _ & entry & Hin & _)]; [done|].
    by apply elem_of_nil in Hin. }
  cbn [fold_left]. rewrite IH. setoid_rewrite elem_of_cons.
  unfold visitProcess, survives. cbn.
  destruct (_ || _) eqn:Hkept; cbn.
  - destruct IsExposeVMStatsEnabled; cbn.
    + destruct (decide (ProcessStats.VMID process = "")) as [Hempty|Hvm].
      * rewrite bool_decide_eq_true_2 by done. cbn.
        split; [naive_solver|].
        intros [?|(_ & Hid & Hsome & entry & [->|Hin] & Hk & Hv)];
          [by left|cbn in *; congruence|].
        right. repeat split; [done..|]. by exists entry.
      * rewrite bool_decide_eq_false_2 by done. cbn.
        destruct (VMStats c !! ProcessStats.VMID process) as [v|] eqn:Hstats.
        -- rewrite elem_of_union, elem_of_singleton. split.
           ++ intros [[->|?]|(_ & Hid & Hsome & entry & Hin & Hk & Hv)].
              ** right. repeat split; [done|by eexists|].
                 exists (pid, process). split; [by left|]. by split.
              ** by left.
              ** right. repeat split; [done..|]. exists entry.
                 split; [by right|done].
           ++ intros [?|(_ & Hid & Hsome & entry & [->|Hin] & Hk & Hv)].
              ** left. by right.
              ** left. left. by cbn in *.
              ** right. repeat split; [done..|]. by exists entry.
        -- split; [naive_solver|].
           intros [?|(_ & Hid & Hsome & entry & [->|Hin] & Hk & Hv)];
             [by left| |].
           ++ cbn in *. subst id. rewrite Hstats in Hsome.
              by destruct Hsome.
           ++ right. repeat split; [done..|]. by exists entry.
    + split; [naive_solver|].
      intros [?|(? & _)]; [by left|done].
  - split; [naive_solver|].
    intros [?|(? & Hid & Hsome & entry & [->|Hin] & Hk & Hv)]; [by left| |].
    + cbn in *. unfold survives in Hk. congruence.
    + right. repeat split; [done..|]. by exists entry.
Qed.

(** [cleanupStaleResources] by its three maps. *)
Lemma cleanupStaleResources_eq c query :
  cleanup c query
  = let loop :=
      fold_left (visit c) (map_to_list (ProcessStats c)) (ProcessStats c, ∅, ∅) in
    let containers :=
      if IsExposeContainerStatsEnabled
      then handle (ContainerStats c) loop.1.2 query
      else (ContainerStats c, []) in
    ({| ProcessStats := loop.1.1;
        ContainerStats := containers.1;
        VMStats :=
          if IsExposeVMStatsEnabled then handleInactiveVM (VMStats c) loop.2
          else VMStats c |},
     containers.2).
Proof.
  unfold cleanupStaleResources. cbn zeta.
  destruct (fold_left _ _ _) as [[stats' cs] vs]. cbn.
  destruct IsExposeContainerStatsEnabled; [|done].
  by destruct (handle (ContainerStats c) cs query).
Qed.

Lemma cleanup_ProcessStats c query pid :
  ProcessStats (cleanup c query).1 !! pid
  = match ProcessStats c !! pid with
    | Some process =>
        if kept process
        then Some (ProcessStats.mk (ProcessStats.PID process) 0
                     (ProcessStats.ContainerID process)
                     (ProcessStats.VMID process))
        else None
    | None => None
    end.
Proof.
  rewrite cleanupStaleResources_eq. cbn.
  rewrite visitProcess_stats by apply NoDup_fst_map_to_list.
  rewrite list_to_map_to_list. cbn.
  by destruct (ProcessStats c !! pid).
Qed.

(** The cleanup keeps a process exactly when its stats were updated in
    the last iteration (its idle counter is 0) or the operating system
    still has a process with its PID; it resets the idle counter of every
    process it keeps and changes nothing else of it, and it deletes the
    others.  The PID that is checked is the one in the stats, not the key
    of the map. *)
Theorem cleanup_keeps_the_updated_and_the_existing_processes c query pid :
  let c' :=
    (cleanupStaleResources SystemProcessName KernelProcessName
       IsExposeContainerStatsEnabled IsExposeVMStatsEnabled processExists
       c query).1 in
  ProcessStats c' !! pid
  = match ProcessStats c !! pid with
    | Some process =>
        if (ProcessStats.IdleCounter process =? 0)%N
           || processExists (ProcessStats.PID process)
        then Some (ProcessStats.mk (ProcessStats.PID process) 0
                     (ProcessStats.ContainerID process)
                     (ProcessStats.VMID process))
        else None
    | None => None
    end.
Proof. apply cleanup_ProcessStats. Qed.

(** A second cleanup, while the operating system gives the same answers,
    leaves the process stats as the first one left them. *)
Theorem cleanup_of_the_process_stats_is_idempotent c query query' :
  let c' :=
    (cleanupStaleResources SystemProcessName KernelProcessName
       IsExposeContainerStatsEnabled IsExposeVMStatsEnabled processExists
       c query).1 in
  ProcessStats
    (cleanupStaleResources SystemProcessName KernelProcessName
       IsExposeContainerStatsEnabled IsExposeVMStatsEnabled processExists
       c' query').1
  = ProcessStats c'.
Proof.
  cbn zeta. apply map_eq. intros pid.
  rewrite (cleanup_ProcessStats (cleanup c query).1).
  rewrite cleanup_ProcessStats.
  destruct (ProcessStats c !! pid) as [process|]; [|done].
  destruct (kept process) eqn:Hkept; [|done].
  unfold survives. cbn. done.
Qed.

(** A VM that has stats and a process that the cleanup keeps is never
    evicted by the cleanup, however many other VMs are inactive. *)
Theorem vm_with_a_kept_process_is_never_evicted c query id v pid process :
  VMStats c !! id = Some v →
  ProcessStats c !! pid = Some process →
  (ProcessStats.IdleCounter process =? 0)%N
  || processExists (ProcessStats.PID process) = true →
  ProcessStats.VMID process = id →
  id ≠ "" →
  VMStats
    (cleanupStaleResources SystemProcessName KernelProcessName
       IsExposeContainerStatsEnabled IsExposeVMStatsEnabled processExists
       c query).1 !! id
  = Some v.
Proof.
  intros Hv Hprocess Hkept Hvm Hid. rewrite cleanupStaleResources_eq. cbn.
  pose proof (visitProcess_vmsFound c (map_to_list (ProcessStats c))
                (ProcessStats c, ∅, ∅) id) as Hfound.
  revert Hfound. generalize (fold_left (visit c) (map_to_list (ProcessStats c))
                               (ProcessStats c, ∅, ∅)).
  intros loop Hfound.
  destruct IsExposeVMStatsEnabled; [|done].
  rewrite handleInactiveVM_lookup. rewrite decide_False; [done|].
  intros [_ Hout]. apply Hout, Hfound. right.
  repeat split; [done|by eexists|].
  exists (pid, process). split; [by apply elem_of_map_to_list|]. by split.
Qed.

(** The cleanup never adds or changes an entry: every process it leaves
    was there before, under the same key, and the container stats and the
    VM stats it leaves are part of those it was given. *)
Theorem cleanup_only_removes c query :
  let c' :=
    (cleanupStaleResources SystemProcessName KernelProcessName
       IsExposeContainerStatsEnabled IsExposeVMStatsEnabled processExists
       c query).1 in
  dom (ProcessStats c') ⊆ dom (ProcessStats c)
  ∧ ContainerStats c' ⊆ ContainerStats c
  ∧ VMStats c' ⊆ VMStats c.
Proof.
  cbn zeta. repeat split.
  - intros pid [process' Hin]%elem_of_dom. rewrite cleanup_ProcessStats in Hin.
    apply elem_of_dom. by destruct (ProcessStats c !! pid).
  - rewrite cleanupStaleResources_eq. cbn.
    destruct IsExposeContainerStatsEnabled; [|done].
    apply map_subseteq_spec. intros id v.
    rewrite handleInactiveContainers_lookup.
    destruct query; [done|]. by case_decide.
  - rewrite cleanupStaleResources_eq. cbn.
    destruct IsExposeVMStatsEnabled; [|done].
    apply map_subseteq_spec. intros id v.
    rewrite handleInactiveVM_lookup. by case_decide.
Qed.

End cleanup_properties.

(** * Scenarios for the further properties *)
Section more_informer_scenarios.
Import resource scenarios.

Lemma classification_result_names_the_lookup_used_witness :
  containerInfoFromProc (containerProcNoVM 9 1) = (Some web, None)
  ∧ is_Some (Some web)
  ∧ (None : option VirtualMachine.t) = None.
Proof.
  apply (classification_result_names_the_lookup_used (containerProcNoVM 9 1)
           {| Type_ := ContainerProcess; Container := Some web; VM := None |}).
  reflexivity.
Defined.

Lemma published_processes_are_keyed_by_their_pid_witness :
  Process.PID
    (Process.mk 7 "sshd" "/usr/sbin/sshd" 5 5 RegularProcess None None)
  = 7%Z.
Proof.
  apply (published_processes_are_keyed_by_their_pid [inr [regularProc 7 5]]).
  left. vm_compute. reflexivity.
Defined.

Lemma published_processes_are_tagged_witness :
  tagged
    (Process.mk 9 "nginx" "/usr/sbin/nginx" 7.5 7.5 ContainerProcess
       (Some web) None).
Proof.
  apply (published_processes_are_tagged [inr [containerProc 9 7.5]] 9%Z).
  left. vm_compute. reflexivity.
Defined.

Lemma running_processes_are_in_the_table_witness :
  ∃ p, p ∈ [regularProc 7 5] ∧ PID p = 7%Z.
Proof.
  apply (running_processes_are_in_the_table NewInformer [regularProc 7 5] 7%Z).
  vm_compute. reflexivity.
Defined.

Lemma process_missing_from_the_table_is_terminated_witness :
  let ri' := (Refresh warmInformer (inr [regularProc 7 6])).1 in
  Processes.Terminated (processes ri') !! 9%Z
  = Some (Process.mk 9 "nginx" "/usr/sbin/nginx" 7.5 7.5 ContainerProcess
            (Some web) None)
  ∧ Processes.Running (processes ri') !! 9%Z = None
  ∧ procCache ri' !! 9%Z = None.
Proof.
  apply (process_missing_from_the_table_is_terminated
           warmInformer [regularProc 7 6] 9%Z).
  - vm_compute. reflexivity.
  - intros q Hq. apply list_elem_of_singleton in Hq as ->. discriminate.
Defined.

Lemma failed_read_publishes_a_listed_process_as_terminated_witness :
  let result := Refresh warmInformer (inr [unreadable 7; containerProc 9 8]) in
  Processes.Terminated (processes result.1) !! 7%Z
  = Some (Process.mk 7 "sshd" "/usr/sbin/sshd" 5 5 RegularProcess None None)
  ∧ Processes.Running (processes result.1) !! 7%Z = None
  ∧ procCache result.1 !! 7%Z = None
  ∧ ∃ e, result.2 = Some e
         ∧ joins (errorString "read stat: no such process") e.
Proof.
  apply (failed_read_publishes_a_listed_process_as_terminated
           warmInformer [] (unreadable 7) [containerProc 9 8]
           (Process.mk 7 "sshd" "/usr/sbin/sshd" 5 5 RegularProcess None None)
           (errorString "read stat: no such process")).
  - vm_compute. reflexivity.
  - intros q Hq. apply list_elem_of_singleton in Hq as ->. discriminate.
  - reflexivity.
Defined.

Lemma idle_process_is_refreshed_from_its_cpu_time_alone_witness :
  Processes.Running (processes (Refresh warmInformer (inr [cpuTimeOnly 7 5])).1)
    !! 7%Z
  = Some (Process.mk 7 "sshd" "/usr/sbin/sshd" 5 (5 - 5) RegularProcess
            None None).
Proof.
  apply (idle_process_is_refreshed_from_its_cpu_time_alone
           warmInformer [] (cpuTimeOnly 7 5) []
           (Process.mk 7 "sshd" "/usr/sbin/sshd" 5 5 RegularProcess None None)
           5%float).
  - vm_compute. reflexivity.
  - intros q Hq. by apply elem_of_nil in Hq.
  - discriminate.
  - reflexivity.
  - vm_compute. reflexivity.
Defined.

Lemma classification_of_a_cached_process_is_kept_witness :
  let proc :=
    Process.mk 7 "nginx" "/usr/sbin/nginx" 6 1 RegularProcess None None in
  Process.Type_ proc = RegularProcess
  ∧ Process.Container proc = None
  ∧ Process.VirtualMachine proc = None.
Proof.
  apply (classification_of_a_cached_process_is_kept
           warmInformer [containerProc 7 6] 7%Z
           (Process.mk 7 "sshd" "/usr/sbin/sshd" 5 5 RegularProcess None None)).
  - vm_compute. reflexivity.
  - discriminate.
  - left. vm_compute. reflexivity.
Defined.

Lemma cached_container_accumulates_its_total_witness :
  let c := Container.mk "c1" "web" "crio" 8.5 1 in
  Container.ID c = "c1"
  ∧ Container.Name c = "web"
  ∧ Container.Runtime c = "crio"
  ∧ Container.CPUTotalTime c
    = fold_left PrimFloat.add
        (Process.CPUTimeDelta
           <$> filter (inContainer "c1")
                 (refreshedProcs (procCache warmInformer)
                    [containerProc 9 8; containerProc 10 0.5]))
        7.5%float.
Proof.
  apply (cached_container_accumulates_its_total
           warmInformer [containerProc 9 8; containerProc 10 0.5] "c1"
           (Container.mk "c1" "web" "crio" 7.5 7.5)).
  - vm_compute. reflexivity.
  - left. vm_compute. reflexivity.
Defined.

Lemma cached_vm_accumulates_its_total_witness :
  let vm := VirtualMachine.mk "vm-1" "guest" "kvm" 3 1 in
  VirtualMachine.ID vm = "vm-1"
  ∧ VirtualMachine.Name vm = "guest"
  ∧ VirtualMachine.Hypervisor vm = "kvm"
  ∧ VirtualMachine.CPUTotalTime vm
    = fold_left PrimFloat.add
        (Process.CPUTimeDelta
           <$> filter (inVM "vm-1")
                 (refreshedProcs (procCache warmInformer) [vmProc 12 3]))
        2%float.
Proof.
  apply (cached_vm_accumulates_its_total
           warmInformer [vmProc 12 3] "vm-1"
           (VirtualMachine.mk "vm-1" "guest" "kvm" 2 2)).
  - vm_compute. reflexivity.
  - left. vm_compute. reflexivity.
Defined.

Lemma container_without_a_read_process_is_terminated_witness :
  let ri' := (Refresh warmInformer (inr [regularProc 7 6; unreadable 9])).1 in
  Containers.Terminated (containers ri') !! "c1"
  = Some (Container.mk "c1" "web" "crio" 7.5 7.5)
  ∧ Containers.Running (containers ri') !! "c1" = None
  ∧ containerCache ri' !! "c1" = None.
Proof.
  apply (container_without_a_read_process_is_terminated
           warmInformer [regularProc 7 6; unreadable 9] "c1").
  - vm_compute. reflexivity.
  - intros proc Hin. vm_compute in Hin.
    apply list_elem_of_singleton in Hin as ->. discriminate.
Defined.

End more_informer_scenarios.

Section more_monitor_scenarios.
Import monitor scenarios.

Lemma attribution_covers_the_running_vms_and_the_node_zones_witness :
  let s :=
    calculateVMPower (oneVM 10 2) (prevSnapshot 7000000)
      (nodeSnapshot 100000000 50000000) in
  Node s = Node (nodeSnapshot 100000000 50000000)
  ∧ dom (VirtualMachines s)
    = dom (resource.VirtualMachines.Running (oneVM 10 2))
  ∧ (∀ id vm,
       VirtualMachines s !! id = Some vm →
       VirtualMachine.ID vm = id
       ∧ dom (VirtualMachine.Zones vm)
         = dom (Node.Zones (Node (nodeSnapshot 100000000 50000000)))
       ∧ ∃ c, resource.VirtualMachines.Running (oneVM 10 2) !! id = Some c
              ∧ VirtualMachine.Name vm = resource.VirtualMachine.Name c
              ∧ VirtualMachine.Hypervisor vm = resource.VirtualMachine.Hypervisor c
              ∧ VirtualMachine.CPUTotalTime vm
                = resource.VirtualMachine.CPUTotalTime c).
Proof.
  apply (@attribution_covers_the_running_vms_and_the_node_zones microUnits
           (oneVM 10 2) (prevSnapshot 7000000) (nodeSnapshot 100000000 50000000)).
  apply map_non_empty_singleton.
Defined.

Lemma absolute_energy_accumulates_outside_the_zero_guard_witness :
  ∃ usage,
    zoneUsageOf
      (calculateVMPower (oneVM 10 2) (prevSnapshot 7000000)
         (nodeSnapshot 100000000 50000000)) "vm-1" "package" = Some usage
    ∧ Usage.Absolute usage = energy_add 7000000%Z (Usage.Delta usage).
Proof.
  apply (@absolute_energy_accumulates_outside_the_zero_guard microUnits
           (oneVM 10 2) (prevSnapshot 7000000) (nodeSnapshot 100000000 50000000)
           "vm-1" (vmWithDelta 2) "package"
           (microUsage 100000000 50000000 0)).
  - reflexivity.
  - reflexivity.
  - reflexivity.
Defined.

Lemma attribution_after_the_first_read_starts_from_zero_witness :
  ∃ usage,
    zoneUsageOf
      (calculateVMPower (oneVM 10 2)
         (firstVMRead (inr ["package"]) (oneVM 0 0) (nodeSnapshot 0 0)).1
         (nodeSnapshot 100000000 50000000)) "vm-1" "package" = Some usage
    ∧ Usage.Absolute usage
      = energy_add (Energy_of_float64 0) (Usage.Delta usage).
Proof.
  apply (@attribution_after_the_first_read_starts_from_zero microUnits
           ["package"] (oneVM 0 0) (nodeSnapshot 0 0)
           (oneVM 10 2) (nodeSnapshot 100000000 50000000)
           "vm-1" (vmWithDelta 2) "package"
           (microUsage 100000000 50000000 0)).
  - reflexivity.
  - reflexivity.
  - reflexivity.
Defined.

End more_monitor_scenarios.

Section more_collector_scenarios.
Import collector scenarios.

Lemma vm_with_a_kept_process_is_never_evicted_witness :
  VMStats
    (cleanupStaleResources SystemProcessName KernelProcessName true true
       (λ pid, bool_decide (pid = 1%Z)) smallCollector (inr ∅)).1 !! "vm-1"
  = Some ().
Proof.
  apply (vm_with_a_kept_process_is_never_evicted
           SystemProcessName KernelProcessName true true
           (λ pid, bool_decide (pid = 1%Z)) smallCollector (inr ∅)
           "vm-1" () 1%Z (procStats 1 3 "" "vm-1")).
  - vm_compute. reflexivity.
  - vm_compute. reflexivity.
  - reflexivity.
  - reflexivity.
  - discriminate.
Defined.

End more_collector_scenarios.
